(** * Mergington High School activities API (src/app.py)

    A shallow embedding of the request handlers of [src/app.py] and of the
    two module-level stores they share, followed by the properties of the
    enrolment, document and sorted-view operations.

    Modelling choices, all taken from the source:
    - [activities] is a Python [dict]: keys are unique and iteration follows
      insertion order, which the sorted view observes on ties.  It is an
      association list, read through [dict_get] and updated in place through
      [dict_alter].
    - [activity_documents] is a [dict] that is only ever looked up by key, so
      it is a [gmap string (list Document)].
    - a handler either returns or raises (an [HTTPException], or whatever
      exception an operation inside it raises); both stores are module
      globals, so a handler is a state transformer that also yields the
      outcome, and a raise keeps the state reached so far.
    - [list.sort(key=..., reverse=...)] is a stable sort that compares keys
      with [<] only; with [reverse=True] CPython reverses the list, sorts it,
      and reverses it again.
    - [sum(scores) / len(scores)] is Python's true division of two integers:
      the exact quotient rounded to the nearest binary64 value, ties to
      even, and [OverflowError] when that value is not finite.  [binary64]
      computes it on rationals; a float is the rational it denotes.  The
      exception leaves the handler as any other does.
    - a Python [str] is a [string] of bytes (its UTF-8 encoding): equality
      and the lexicographic order by code point are the same on both. *)

From Stdlib Require Import ZArith QArith Qround Qabs Qpower String Ascii List
  Permutation Sorted Bool Lia Lqa.
From stdpp Require Import gmap strings.
Import ListNotations.

Local Open Scope string_scope.
Local Open Scope Z_scope.
Local Open Scope list_scope.

Set Default Proof Using "Type".

(** ** Python's ordering on sort keys *)

(** [list.sort] only ever asks [a < b].  The keys this program sorts by
    (strings, integers, and the int/float averages) are all ordered by a
    strict weak order. *)
Class PyOrd (K : Type) := {
  py_lt : K -> K -> bool;
  py_lt_irrefl : forall x, py_lt x x = false;
  py_lt_trans : forall x y z,
    py_lt x y = true -> py_lt y z = true -> py_lt x z = true;
  py_lt_negtrans : forall x y z,
    py_lt x y = false -> py_lt y z = false -> py_lt x z = false
}.

(** Two keys tie when neither is below the other. *)
Definition py_tie {K} `{PyOrd K} (a b : K) : bool :=
  negb (py_lt a b) && negb (py_lt b a).

(** *** Strings: lexicographic by character code *)

Lemma ascii_compare_lt_trans a b c :
  Ascii.compare a b = Lt -> Ascii.compare b c = Lt -> Ascii.compare a c = Lt.
Proof.
  unfold Ascii.compare. rewrite !N.compare_lt_iff. lia.
Qed.

Lemma string_compare_refl s : String.compare s s = Eq.
Proof.
  induction s as [|a s IH]; simpl; [reflexivity|].
  unfold Ascii.compare. now rewrite N.compare_refl.
Qed.

Lemma string_compare_lt_trans s1 : forall s2 s3,
  String.compare s1 s2 = Lt -> String.compare s2 s3 = Lt ->
  String.compare s1 s3 = Lt.
Proof.
  induction s1 as [|a s1 IH]; intros [|b s2] [|c s3]; simpl; try congruence.
  destruct (Ascii.compare a b) eqn:Hab; try discriminate;
    destruct (Ascii.compare b c) eqn:Hbc; try discriminate; intros H1 H2.
  - apply Ascii.compare_eq_iff in Hab, Hbc. subst.
    unfold Ascii.compare. rewrite N.compare_refl. eauto.
  - apply Ascii.compare_eq_iff in Hab. subst. now rewrite Hbc.
  - apply Ascii.compare_eq_iff in Hbc. subst. now rewrite Hab.
  - now rewrite (ascii_compare_lt_trans _ _ _ Hab Hbc).
Qed.

Lemma string_ltb_lt s1 s2 : String.ltb s1 s2 = true <-> String.compare s1 s2 = Lt.
Proof. unfold String.ltb. destruct (String.compare s1 s2); simpl; split; congruence. Qed.

Lemma string_ltb_ge s1 s2 :
  String.ltb s1 s2 = false <-> String.compare s2 s1 <> Gt.
Proof.
  unfold String.ltb. rewrite (String.compare_antisym s2 s1).
  destruct (String.compare s1 s2); simpl; split; congruence.
Qed.

Lemma string_compare_le_trans s1 s2 s3 :
  String.compare s1 s2 <> Gt -> String.compare s2 s3 <> Gt ->
  String.compare s1 s3 <> Gt.
Proof.
  intros H12 H23 H13.
  assert (H31 : String.compare s3 s1 = Lt).
  { rewrite String.compare_antisym, H13. reflexivity. }
  destruct (String.compare s1 s2) eqn:E12; [| |congruence].
  - apply String.compare_eq_iff in E12. subst s2.
    rewrite String.compare_antisym, H31 in H23. now apply H23.
  - pose proof (string_compare_lt_trans _ _ _ H31 E12) as H32.
    rewrite String.compare_antisym, H32 in H23. now apply H23.
Qed.

#[export] Program Instance string_PyOrd : PyOrd string := {| py_lt := String.ltb |}.
Next Obligation.
  intros x. unfold String.ltb. now rewrite string_compare_refl.
Qed.
Next Obligation.
  intros x y z. rewrite !string_ltb_lt. apply string_compare_lt_trans.
Qed.
Next Obligation.
  intros x y z. rewrite !string_ltb_ge. intros; eapply string_compare_le_trans; eauto.
Qed.

(** *** Integers *)

#[export] Program Instance Z_PyOrd : PyOrd Z := {| py_lt := Z.ltb |}.
Next Obligation. intros x. apply Z.ltb_irrefl. Qed.
Next Obligation. intros x y z. rewrite !Z.ltb_lt. lia. Qed.
Next Obligation. intros x y z. rewrite !Z.ltb_ge. lia. Qed.

(** *** Numbers ([int] and [float] mixed): compared by value *)

Definition Qltb (x y : Q) : bool := negb (Qle_bool y x).

Lemma Qltb_lt x y : Qltb x y = true <-> (x < y)%Q.
Proof.
  unfold Qltb. rewrite negb_true_iff, <- not_true_iff_false, Qle_bool_iff.
  split; [apply Qnot_le_lt | apply Qlt_not_le].
Qed.

Lemma Qltb_ge x y : Qltb x y = false <-> (y <= x)%Q.
Proof. unfold Qltb. now rewrite negb_false_iff, Qle_bool_iff. Qed.

#[export] Program Instance Q_PyOrd : PyOrd Q := {| py_lt := Qltb |}.
Next Obligation. intros x. apply Qltb_ge, Qle_refl. Qed.
Next Obligation. intros x y z. rewrite !Qltb_lt. apply Qlt_trans. Qed.
Next Obligation. intros x y z. rewrite !Qltb_ge. intros; eapply Qle_trans; eauto. Qed.

(** The same keys under the opposite comparison. *)
Program Definition PyOrd_flip {K} (H : PyOrd K) : PyOrd K :=
  {| py_lt := fun a b => @py_lt K H b a |}.
Next Obligation. intros K H x. apply py_lt_irrefl. Qed.
Next Obligation. intros K H x y z Hxy Hyz. exact (py_lt_trans _ _ _ Hyz Hxy). Qed.
Next Obligation. intros K H x y z Hxy Hyz. exact (py_lt_negtrans _ _ _ Hyz Hxy). Qed.

(** ** [list.sort(key=..., reverse=...)] *)

Section ListSort.
Context {A K : Type} {HK : PyOrd K} (key : A -> K).

(** [x] stood before every element of [l] in the input: it goes in front
    of the first element that is not strictly below it. *)
Fixpoint insert_sorted (x : A) (l : list A) : list A :=
  match l with
  | [] => [x]
  | y :: l' =>
      if py_lt (key y) (key x) then y :: insert_sorted x l'
      else x :: y :: l'
  end.

Fixpoint stable_sort (l : list A) : list A :=
  match l with
  | [] => []
  | x :: l' => insert_sorted x (stable_sort l')
  end.

(** [reverse=True]: reverse, sort, reverse (CPython's [list_sort_impl]). *)
Definition list_sort (reverse : bool) (l : list A) : list A :=
  if reverse then rev (stable_sort (rev l)) else stable_sort l.

(** Ascending: nothing later is strictly below something earlier. *)
Definition nondecreasing (a b : A) : Prop := py_lt (key b) (key a) = false.
(** Descending: nothing later is strictly above something earlier. *)
Definition nonincreasing (a b : A) : Prop := py_lt (key a) (key b) = false.

Definition in_order (reverse : bool) : A -> A -> Prop :=
  if reverse then nonincreasing else nondecreasing.

(** The entries whose key ties with [k], in the order they have in [l]. *)
Definition tie_class (k : K) (l : list A) : list A :=
  List.filter (fun x => py_tie (key x) k) l.

(** [out] keeps every tie class of [inp] in its original order. *)
Definition keeps_ties (inp out : list A) : Prop :=
  forall k, tie_class k out = tie_class k inp.

End ListSort.

(** ** Python's [int / int] *)

(** The nearest integer, ties to the even one. *)
Definition round_half_even (x : Q) : Z :=
  let f := Qfloor x in
  match (x - inject_Z f ?= 1 # 2)%Q with
  | Lt => f
  | Gt => f + 1
  | Eq => if Z.even f then f else f + 1
  end.

Definition pow2 (e : Z) : Q := (2 ^ e)%Q.

(** The nearest multiple of [2^e]. *)
Definition round_to_grid (e : Z) (x : Q) : Q :=
  (inject_Z (round_half_even (x / pow2 e)) * pow2 e)%Q.

(** The binary logarithm of a positive rational, rounded down. *)
Definition ilog2 (x : Q) : Z :=
  let g := Z.log2 (Qnum x) - Z.log2 (Zpos (Qden x)) in
  if Qle_bool (pow2 g) x then g else g - 1.

(** The exponent of the last place of a double near [x]: 53 significant
    bits, and no place below [2^-1074] (subnormal numbers). *)
Definition float_exponent (x : Q) : Z := Z.max (-1074) (ilog2 x - 52).

Definition round_pos (x : Q) : Q := round_to_grid (float_exponent x) x.

(** The double nearest to [x], before the range check. *)
Definition nearest_double (x : Q) : Q :=
  match (x ?= 0)%Q with
  | Eq => 0%Q
  | Gt => round_pos x
  | Lt => (- round_pos (- x))%Q
  end.

(** The float that denotes [x] rounded, in lowest terms; [None] when the
    rounded value reaches [2^1024], where Python raises [OverflowError]. *)
Definition binary64 (x : Q) : option Q :=
  let f := nearest_double x in
  if Qle_bool (pow2 1024) (Qabs f) then None else Some (Qred f).

(** The least magnitude that no longer rounds to a finite double. *)
Definition overflow_threshold : Q := (pow2 1024 - pow2 970)%Q.

(** ** Data model *)

(** A value of the [activities] dict. *)
Record Activity := mkActivity {
  description : string;
  schedule : string;
  max_participants : Z;
  participants : list string
}.

(** One element of an [activity_documents] list; [file.content_type] may be
    [None]. *)
Record Document := mkDocument {
  doc_email : string;
  doc_filename : string;
  doc_content_type : option string;
  doc_score : Z;
  doc_verified : bool
}.

(** The two module-level dictionaries. *)
Record Store := mkStore {
  activities : list (string * Activity);
  activity_documents : gmap string (list Document)
}.

(** *** Insertion-ordered dict *)

(** [d[k]] / [k in d]. *)
Fixpoint dict_get {V} (d : list (string * V)) (k : string) : option V :=
  match d with
  | [] => None
  | (k', v) :: d' => if String.eqb k' k then Some v else dict_get d' k
  end.

(** In-place mutation of the value stored under [k]; the key keeps its
    position. *)
Fixpoint dict_alter {V} (f : V -> V) (k : string) (d : list (string * V))
  : list (string * V) :=
  match d with
  | [] => []
  | (k', v) :: d' =>
      if String.eqb k' k then (k', f v) :: d' else (k', v) :: dict_alter f k d'
  end.

(** *** Python list primitives *)

(** [x in l] *)
Definition list_contains (x : string) (l : list string) : bool :=
  existsb (String.eqb x) l.

(** [l.remove(x)]: drops the first element equal to [x]; [None] stands for
    the [ValueError] raised when there is none. *)
Fixpoint list_remove (x : string) (l : list string) : option (list string) :=
  match l with
  | [] => None
  | y :: l' =>
      if String.eqb y x then Some l'
      else option_map (cons y) (list_remove x l')
  end.

(** [sum(l)] *)
Definition py_sum (l : list Z) : Z := fold_left Z.add l 0.

(** ** Handlers as state transformers with exceptions *)

Inductive exception :=
| HTTPException (status_code : Z) (detail : string)
| ValueError
| ZeroDivisionError
| OverflowError.

Inductive outcome (A : Type) :=
| Returned (a : A)
| Raised (e : exception).
Arguments Returned {A} a.
Arguments Raised {A} e.

Definition handler (A : Type) : Type := Store -> outcome A * Store.

Definition ret {A} (a : A) : handler A := fun s => (Returned a, s).
Definition raise {A} (e : exception) : handler A := fun s => (Raised e, s).
Definition bind {A B} (m : handler A) (k : A -> handler B) : handler B :=
  fun s => match m s with
           | (Returned a, s') => k a s'
           | (Raised e, s') => (Raised e, s')
           end.
Definition read {A} (f : Store -> A) : handler A := fun s => (Returned (f s), s).
Definition write_activities (f : list (string * Activity) -> list (string * Activity))
  : handler unit :=
  fun s => (Returned tt, mkStore (f (activities s)) (activity_documents s)).
Definition write_documents
  (f : gmap string (list Document) -> gmap string (list Document)) : handler unit :=
  fun s => (Returned tt, mkStore (activities s) (f (activity_documents s))).

#[export] Instance handler_ret : MRet handler := @ret.
#[export] Instance handler_bind : MBind handler := fun A B k m => bind m k.

Definition NotFound (detail : string) : exception := HTTPException 404 detail.
Definition Conflict (detail : string) : exception := HTTPException 400 detail.

(** A computation that touches no store, run inside a handler. *)
Definition lift {A} (o : outcome A) : handler A := fun s => (o, s).

(** [a / b] on two Python integers. *)
Definition true_div (a b : Z) : outcome Q :=
  if Z.eqb b 0 then Raised ZeroDivisionError
  else match binary64 (inject_Z a / inject_Z b) with
       | Some f => Returned f
       | None => Raised OverflowError
       end.

(** [list.sort] calls [key] on every element, in list order, before it
    compares anything; an exception from [key] ends the sort. *)
Fixpoint compute_keys {A K} (key : A -> outcome K) (l : list A)
  : outcome (list (K * A)) :=
  match l with
  | [] => Returned []
  | x :: l' =>
      match key x with
      | Raised e => Raised e
      | Returned k =>
          match compute_keys key l' with
          | Raised e => Raised e
          | Returned kl => Returned ((k, x) :: kl)
          end
      end
  end.

(** [l.sort(key=key, reverse=reverse)] for a [key] that may raise: the
    elements are sorted by their precomputed keys. *)
Definition list_sort_by {A K} `{PyOrd K} (key : A -> outcome K) (reverse : bool)
  (l : list A) : outcome (list A) :=
  match compute_keys key l with
  | Raised e => Raised e
  | Returned kl => Returned (map snd (list_sort fst reverse kl))
  end.

(** ** Responses *)

Record MessageResponse := mkMessage { message : string }.

Inductive RedirectResponse := mkRedirect (url : string).

(** [{"name": k, **v}] *)
Record ActivityView := mkActivityView {
  view_name : string;
  view_description : string;
  view_schedule : string;
  view_max_participants : Z;
  view_participants : list string
}.

Definition activity_view (item : string * Activity) : ActivityView :=
  let '(k, v) := item in
  mkActivityView k (description v) (schedule v) (max_participants v) (participants v).

(** [{"email": email, "score": score}], [score] possibly [None]. *)
Record ParticipantInfo := mkParticipantInfo {
  info_email : string;
  info_score : option Z
}.

Record UploadFile := mkUploadFile {
  file_filename : string;
  file_content_type : option string
}.

(** ** The handlers *)

Definition root : handler RedirectResponse :=
  ret (mkRedirect "/static/index.html").

Definition get_activities : handler (list (string * Activity)) :=
  read activities.

Definition signup_for_activity (activity_name email : string)
  : handler MessageResponse :=
  acts ← read activities;
  match dict_get acts activity_name with
  | None => raise (NotFound "Activity not found")
  | Some activity =>
      if list_contains email (participants activity)
      then raise (Conflict "Student is already signed up")
      else
        write_activities (dict_alter
          (fun a => mkActivity (description a) (schedule a) (max_participants a)
                      (participants a ++ [email])) activity_name) ;;
        ret (mkMessage ("Signed up " +:+ email +:+ " for " +:+ activity_name))
  end.

Definition unregister_from_activity (activity_name email : string)
  : handler MessageResponse :=
  acts ← read activities;
  match dict_get acts activity_name with
  | None => raise (NotFound "Activity not found")
  | Some activity =>
      if negb (list_contains email (participants activity))
      then raise (Conflict "Student is not signed up for this activity")
      else
        match list_remove email (participants activity) with
        | None => raise ValueError
        | Some rest =>
            write_activities (dict_alter
              (fun a => mkActivity (description a) (schedule a)
                          (max_participants a) rest) activity_name) ;;
            ret (mkMessage ("Unregistered " +:+ email +:+ " from " +:+ activity_name))
        end
  end.

Definition upload_document (activity_name email : string) (file : UploadFile)
  (score : Z) : handler MessageResponse :=
  acts ← read activities;
  match dict_get acts activity_name with
  | None => raise (NotFound "Activity not found")
  | Some _ =>
      let doc := mkDocument email (file_filename file) (file_content_type file)
                   score false in
      write_documents (fun docs =>
        <[activity_name := default [] (docs !! activity_name) ++ [doc]]> docs) ;;
      ret (mkMessage ("Uploaded " +:+ file_filename file +:+ " for " +:+ email
                      +:+ " in " +:+ activity_name))
  end.

Definition get_activity_documents (activity_name : string)
  : handler (list Document) :=
  acts ← read activities;
  match dict_get acts activity_name with
  | None => raise (NotFound "Activity not found")
  | Some _ =>
      docs ← read activity_documents;
      ret (default [] (docs !! activity_name))
  end.

(** The loop of [verify_document]: the list after the first matching
    document has been marked, or [None] when the loop falls through. *)
Fixpoint mark_first (email filename : string) (docs : list Document)
  : option (list Document) :=
  match docs with
  | [] => None
  | doc :: rest =>
      if String.eqb (doc_email doc) email && String.eqb (doc_filename doc) filename
      then Some (mkDocument (doc_email doc) (doc_filename doc)
                   (doc_content_type doc) (doc_score doc) true :: rest)
      else option_map (cons doc) (mark_first email filename rest)
  end.

Definition verify_document (activity_name email filename : string)
  : handler MessageResponse :=
  all_docs ← read activity_documents;
  match all_docs !! activity_name with
  | None => raise (NotFound "Document not found")
  | Some docs =>
      match mark_first email filename docs with
      | Some docs' =>
          write_documents (fun d => <[activity_name := docs']> d) ;;
          ret (mkMessage ("Verified " +:+ filename +:+ " for " +:+ email
                          +:+ " in " +:+ activity_name))
      | None => raise (NotFound "Document not found")
      end
  end.

(** The inner loop of [get_sorted_participants]: the score of the first
    verified document of [email], or [None]. *)
Fixpoint first_verified_score (email : string) (docs : list Document)
  : option Z :=
  match docs with
  | [] => None
  | doc :: rest =>
      if String.eqb (doc_email doc) email && doc_verified doc
      then Some (doc_score doc)
      else first_verified_score email rest
  end.

(** [x["score"] if x["score"] is not None else 0] *)
Definition score_key (x : ParticipantInfo) : Z :=
  match info_score x with
  | Some sc => sc
  | None => 0
  end.

Definition get_sorted_participants (activity_name sort_by : string)
  (descending : bool) : handler (list ParticipantInfo) :=
  acts ← read activities;
  match dict_get acts activity_name with
  | None => raise (NotFound "Activity not found")
  | Some activity =>
      all_docs ← read activity_documents;
      let docs := default [] (all_docs !! activity_name) in
      let info := map (fun email =>
                         mkParticipantInfo email (first_verified_score email docs))
                      (participants activity) in
      if String.eqb sort_by "name"
      then ret (list_sort info_email descending info)
      else if String.eqb sort_by "score"
      then ret (list_sort score_key descending info)
      else ret info
  end.

(** [[doc["score"] for doc in docs if doc.get("verified")]] *)
Definition verified_scores (docs : list Document) : list Z :=
  flat_map (fun doc => if doc_verified doc then [doc_score doc] else []) docs.

Definition avg_score (all_docs : gmap string (list Document))
  (activity_name : string) : outcome Q :=
  let docs := default [] (all_docs !! activity_name) in
  let scores := verified_scores docs in
  match scores with
  | [] => Returned 0%Q
  | _ :: _ => true_div (py_sum scores) (Z.of_nat (length scores))
  end.

Definition get_sorted_activities (sort_by : string) (descending : bool)
  : handler (list ActivityView) :=
  acts ← read activities;
  all_docs ← read activity_documents;
  items ← (if String.eqb sort_by "name"
           then ret (list_sort fst descending acts)
           else if String.eqb sort_by "participants"
           then ret (list_sort (fun x => Z.of_nat (length (participants (snd x))))
                       descending acts)
           else if String.eqb sort_by "score"
           then lift (list_sort_by (fun x => avg_score all_docs (fst x))
                        descending acts)
           else ret acts);
  ret (map activity_view items).

(** ** Seed data *)

Definition seed_activities : list (string * Activity) :=
  [ ("Chess Club",
     mkActivity "Learn strategies and compete in chess tournaments"
       "Fridays, 3:30 PM - 5:00 PM" 12
       ["michael@mergington.edu"; "daniel@mergington.edu"]);
    ("Programming Class",
     mkActivity "Learn programming fundamentals and build software projects"
       "Tuesdays and Thursdays, 3:30 PM - 4:30 PM" 20
       ["emma@mergington.edu"; "sophia@mergington.edu"]);
    ("Gym Class",
     mkActivity "Physical education and sports activities"
       "Mondays, Wednesdays, Fridays, 2:00 PM - 3:00 PM" 30
       ["john@mergington.edu"; "olivia@mergington.edu"]);
    ("Soccer Team",
     mkActivity "Join the school soccer team and compete in matches"
       "Tuesdays and Thursdays, 4:00 PM - 5:30 PM" 22
       ["liam@mergington.edu"; "noah@mergington.edu"]);
    ("Basketball Team",
     mkActivity "Practice and play basketball with the school team"
       "Wednesdays and Fridays, 3:30 PM - 5:00 PM" 15
       ["ava@mergington.edu"; "mia@mergington.edu"]);
    ("Art Club",
     mkActivity "Explore your creativity through painting and drawing"
       "Thursdays, 3:30 PM - 5:00 PM" 15
       ["amelia@mergington.edu"; "harper@mergington.edu"]);
    ("Drama Club",
     mkActivity "Act, direct, and produce plays and performances"
       "Mondays and Wednesdays, 4:00 PM - 5:30 PM" 20
       ["ella@mergington.edu"; "scarlett@mergington.edu"]);
    ("Math Club",
     mkActivity "Solve challenging problems and participate in math competitions"
       "Tuesdays, 3:30 PM - 4:30 PM" 10
       ["james@mergington.edu"; "benjamin@mergington.edu"]);
    ("Debate Team",
     mkActivity "Develop public speaking and argumentation skills"
       "Fridays, 4:00 PM - 5:30 PM" 12
       ["charlotte@mergington.edu"; "henry@mergington.edu"]) ].

Definition seed : Store := mkStore seed_activities ∅.

(** ** Requests and reachable states *)

Inductive request :=
| Root
| GetActivities
| Signup (activity_name email : string)
| Unregister (activity_name email : string)
| Upload (activity_name email : string) (file : UploadFile) (score : Z)
| GetDocuments (activity_name : string)
| Verify (activity_name email filename : string)
| SortedActivities (sort_by : string) (descending : bool)
| SortedParticipants (activity_name sort_by : string) (descending : bool).

(** The store left behind by one request, whether it returned or raised. *)
Definition serve (r : request) (s : Store) : Store :=
  match r with
  | Root => snd (root s)
  | GetActivities => snd (get_activities s)
  | Signup n e => snd (signup_for_activity n e s)
  | Unregister n e => snd (unregister_from_activity n e s)
  | Upload n e f sc => snd (upload_document n e f sc s)
  | GetDocuments n => snd (get_activity_documents n s)
  | Verify n e f => snd (verify_document n e f s)
  | SortedActivities k d => snd (get_sorted_activities k d s)
  | SortedParticipants n k d => snd (get_sorted_participants n k d s)
  end.

Inductive reachable : Store -> Prop :=
| reachable_seed : reachable seed
| reachable_step s r : reachable s -> reachable (serve r s).

(** ** Vocabulary of the statements *)

(** An activity with its participant list replaced. *)
Definition with_participants (a : Activity) (ps : list string) : Activity :=
  mkActivity (description a) (schedule a) (max_participants a) ps.

(** [doc["email"] == email and doc["filename"] == filename] *)
Definition doc_matches (email filename : string) (doc : Document) : Prop :=
  doc_email doc = email /\ doc_filename doc = filename.

(** [doc["verified"] = True] *)
Definition mark_verified (doc : Document) : Document :=
  mkDocument (doc_email doc) (doc_filename doc) (doc_content_type doc)
    (doc_score doc) true.

(** [doc["email"] == email and doc.get("verified")] *)
Definition verified_for (email : string) (doc : Document) : Prop :=
  doc_email doc = email /\ doc_verified doc = true.

Definition no_duplicate_participants (s : Store) : Prop :=
  Forall (fun item => List.NoDup (participants (snd item))) (activities s).

(** [x] stands somewhere before [y] in [l]. *)
Definition occurs_before {A} (x y : A) (l : list A) : Prop :=
  exists l1 l2 l3, l = l1 ++ x :: l2 ++ y :: l3.

(** The local [items] of [get_sorted_activities] once the [if]/[elif] chain
    has run, or the exception that ended it. *)
Definition items_after_sort (sort_by : string) (descending : bool) (s : Store)
  : outcome (list (string * Activity)) :=
  if String.eqb sort_by "name"
  then Returned (list_sort fst descending (activities s))
  else if String.eqb sort_by "participants"
  then Returned (list_sort (fun x => Z.of_nat (length (participants (snd x))))
                   descending (activities s))
  else if String.eqb sort_by "score"
  then list_sort_by (fun x => avg_score (activity_documents s) (fst x))
         descending (activities s)
  else Returned (activities s).

(** The verified documents filed under an activity name. *)
Definition verified_documents (s : Store) (activity_name : string)
  : list Document :=
  List.filter doc_verified (default [] (activity_documents s !! activity_name)).

(** Their average score as an exact rational; 0 when there is none. *)
Definition exact_average (s : Store) (activity_name : string) : Q :=
  match verified_documents s activity_name with
  | [] => 0%Q
  | vs => (inject_Z (fold_right Z.add 0%Z (map doc_score vs))
           / inject_Z (Z.of_nat (length vs)))%Q
  end.

(** The float that stands for it; [None] beyond the float range. *)
Definition float_average (s : Store) (activity_name : string) : option Q :=
  binary64 (exact_average s activity_name).

(** Every activity's average is within the float range. *)
Definition averages_in_range (s : Store) : Prop :=
  forall item, In item (activities s) ->
    (Qabs (exact_average s (fst item)) < overflow_threshold)%Q.

(** The order that the list sorted by score obeys: that of the rounded
    averages, which departs from that of the exact averages only where two
    of them round to the same float. *)
Definition average_in_order (descending : bool) (s : Store)
  (x y : string * Activity) : Prop :=
  exists fx fy,
    float_average s (fst x) = Some fx
    /\ float_average s (fst y) = Some fy
    /\ (if descending then fy <= fx else fx <= fy)%Q
    /\ (fx = fy
        \/ if descending
           then (exact_average s (fst y) < exact_average s (fst x))%Q
           else (exact_average s (fst x) < exact_average s (fst y))%Q).

(** The order of the exact averages. *)
Definition exact_average_in_order (descending : bool) (s : Store)
  (x y : string * Activity) : Prop :=
  if descending
  then (exact_average s (fst y) <= exact_average s (fst x))%Q
  else (exact_average s (fst x) <= exact_average s (fst y))%Q.

(** The list [info] as the loop over the participants builds it. *)
Definition info_before_sort (s : Store) (activity_name : string) (a : Activity)
  : list ParticipantInfo :=
  map (fun email =>
         mkParticipantInfo email
           (first_verified_score email
              (default [] (activity_documents s !! activity_name))))
      (participants a).

(** [info] once the [if]/[elif] chain has run. *)
Definition info_after_sort (s : Store) (activity_name sort_by : string)
  (descending : bool) (a : Activity) : list ParticipantInfo :=
  if String.eqb sort_by "name"
  then list_sort info_email descending (info_before_sort s activity_name a)
  else if String.eqb sort_by "score"
  then list_sort score_key descending (info_before_sort s activity_name a)
  else info_before_sort s activity_name a.

(** The order on scores that the sorted list obeys, [None] read as 0. *)
Definition score_in_order (descending : bool) (x y : ParticipantInfo) : Prop :=
  if descending
  then default 0 (info_score y) <= default 0 (info_score x)
  else default 0 (info_score x) <= default 0 (info_score y).

(** Whether two activities have sort keys that compare equal under
    [sort_by]: the same name, the same number of participants, or averages
    that are the same float; when [sort_by] selects no sort every pair
    counts as tied. *)
Definition activities_same_key (s : Store) (sort_by : string)
  (x y : string * Activity) : bool :=
  if String.eqb sort_by "name"
  then String.eqb (fst x) (fst y)
  else if String.eqb sort_by "participants"
  then Nat.eqb (length (participants (snd x))) (length (participants (snd y)))
  else if String.eqb sort_by "score"
  then match float_average s (fst x), float_average s (fst y) with
       | Some fx, Some fy => Qeq_bool fx fy
       | _, _ => false
       end
  else true.

(** The same for two participant entries: the same email, or the same
    score with [None] read as 0. *)
Definition participants_same_key (sort_by : string) (x y : ParticipantInfo)
  : bool :=
  if String.eqb sort_by "name"
  then String.eqb (info_email x) (info_email y)
  else if String.eqb sort_by "score"
  then Z.eqb (default 0 (info_score x)) (default 0 (info_score y))
  else true.

(** What a stable sort with the comparison turned around gives. *)
Definition items_by_flipped_comparison (sort_by : string) (s : Store)
  : list (string * Activity) :=
  if String.eqb sort_by "name"
  then @stable_sort _ _ (PyOrd_flip string_PyOrd) fst (activities s)
  else if String.eqb sort_by "participants"
  then @stable_sort _ _ (PyOrd_flip Z_PyOrd)
         (fun x => Z.of_nat (length (participants (snd x)))) (activities s)
  else if String.eqb sort_by "score"
  then @stable_sort _ _ (PyOrd_flip Q_PyOrd)
         (fun x => default 0%Q (float_average s (fst x))) (activities s)
  else activities s.

Definition info_by_flipped_comparison (s : Store) (activity_name sort_by : string)
  (a : Activity) : list ParticipantInfo :=
  if String.eqb sort_by "name"
  then @stable_sort _ _ (PyOrd_flip string_PyOrd) info_email
         (info_before_sort s activity_name a)
  else if String.eqb sort_by "score"
  then @stable_sort _ _ (PyOrd_flip Z_PyOrd)
         (fun x => default 0 (info_score x))
         (info_before_sort s activity_name a)
  else info_before_sort s activity_name a.

(** The exception a handler call ended with, if it raised. *)
Definition exception_of {A} (o : outcome A * Store) : option exception :=
  match fst o with
  | Raised e => Some e
  | Returned _ => None
  end.

(** The exception a request ends with, if it raises. *)
Definition raised_by (r : request) (s : Store) : option exception :=
  match r with
  | Root => exception_of (root s)
  | GetActivities => exception_of (get_activities s)
  | Signup n e => exception_of (signup_for_activity n e s)
  | Unregister n e => exception_of (unregister_from_activity n e s)
  | Upload n e f sc => exception_of (upload_document n e f sc s)
  | GetDocuments n => exception_of (get_activity_documents n s)
  | Verify n e f => exception_of (verify_document n e f s)
  | SortedActivities k d => exception_of (get_sorted_activities k d s)
  | SortedParticipants n k d => exception_of (get_sorted_participants n k d s)
  end.

(** The stores a sequence of requests can lead to from [s]. *)
Inductive serves (s : Store) : Store -> Prop :=
| serves_none : serves s s
| serves_more s' r : serves s s' -> serves s (serve r s').

(** [d'] is the record [d], possibly verified since. *)
Definition same_record (d d' : Document) : Prop :=
  doc_email d' = doc_email d
  /\ doc_filename d' = doc_filename d
  /\ doc_content_type d' = doc_content_type d
  /\ doc_score d' = doc_score d
  /\ (doc_verified d = true -> doc_verified d' = true).

(** [new] holds the records of [old], in the same order, then more. *)
Definition documents_grow (old new : list Document) : Prop :=
  exists kept added, new = kept ++ added /\ Forall2 same_record old kept.

(** What of an activity no handler writes. *)
Definition activity_frame (item : string * Activity)
  : string * string * string * Z :=
  (fst item, description (snd item), schedule (snd item),
   max_participants (snd item)).

(** Every document list is filed under an activity and is not empty. *)
Definition documents_filed (s : Store) : Prop :=
  forall activity_name docs,
    activity_documents s !! activity_name = Some docs ->
    docs <> [] /\ dict_get (activities s) activity_name <> None.

(** The document [upload_document] builds. *)
Definition uploaded (email : string) (file : UploadFile) (score : Z) : Document :=
  mkDocument email (file_filename file) (file_content_type file) score false.

(** The order on names that the list sorted by name obeys. *)
Definition name_in_order (descending : bool) (x y : string * Activity) : Prop :=
  if descending then String.leb (fst y) (fst x) = true
  else String.leb (fst x) (fst y) = true.

(** The order on participant counts that the list sorted by participants
    obeys. *)
Definition count_in_order (descending : bool) (x y : string * Activity) : Prop :=
  if descending
  then (length (participants (snd y)) <= length (participants (snd x)))%nat
  else (length (participants (snd x)) <= length (participants (snd y)))%nat.

(** Stores used in the worked examples. *)

(** The seed data after an upload with score [10^400] and its verification. *)
Definition overflow_store : Store :=
  serve (Verify "Chess Club" "michael@mergington.edu" "medal.pdf")
    (serve (Upload "Chess Club" "michael@mergington.edu"
              (mkUploadFile "medal.pdf" (Some "application/pdf")) (10 ^ 400))
       seed).

(** The seed data after two verified uploads: score [2^53 + 1] for the first
    activity of the dict and [2^53] for the second. *)
Definition rounding_store : Store :=
  serve (Verify "Programming Class" "emma@mergington.edu" "cert.pdf")
    (serve (Upload "Programming Class" "emma@mergington.edu"
              (mkUploadFile "cert.pdf" None) (2 ^ 53))
       (serve (Verify "Chess Club" "michael@mergington.edu" "medal.pdf")
          (serve (Upload "Chess Club" "michael@mergington.edu"
                    (mkUploadFile "medal.pdf" None) (2 ^ 53 + 1))
             seed))).

(** One activity whose four participants have the scores None, 0, None
    and 5. *)
Definition none_and_zero_store : Store :=
  mkStore
    [("Tiny Club",
      mkActivity "Four seats" "Never" 4
        ["a@mergington.edu"; "b@mergington.edu"; "c@mergington.edu";
         "d@mergington.edu"])]
    {[ "Tiny Club" :=
         [mkDocument "b@mergington.edu" "zero.pdf" None 0 true;
          mkDocument "d@mergington.edu" "five.pdf" None 5 true;
          mkDocument "a@mergington.edu" "draft.pdf" None 9 false] ]}.


(** A store with one unverified document, for the activity ["Chess Club"]. *)
Definition one_document_store : Store :=
  mkStore seed_activities
    {[ "Chess Club" :=
         [mkDocument "michael@mergington.edu" "medal.pdf" (Some "application/pdf") 7 false] ]}.

(** Four documents for ["Chess Club"]: the first is unverified. *)
Definition chess_documents : list Document :=
  [ mkDocument "michael@mergington.edu" "medal.pdf" (Some "application/pdf") 7 false;
    mkDocument "michael@mergington.edu" "cup.pdf" (Some "application/pdf") 9 true;
    mkDocument "daniel@mergington.edu" "open.pdf" None 4 true;
    mkDocument "michael@mergington.edu" "blitz.pdf" (Some "image/png") 5 true ].

Definition chess_store : Store :=
  mkStore seed_activities {[ "Chess Club" := chess_documents ]}.

(** * Properties *)

(** Unfolds one handler applied to a store. *)
Ltac run_handler :=
  unfold mbind, handler_bind, bind, read, raise, ret, lift, write_activities,
    write_documents; cbn [fst snd activities activity_documents].

(** ** Ordering facts *)

Section PyOrdFacts.
Context {K : Type} `{PyOrd K}.

Lemma py_tie_refl (a : K) : py_tie a a = true.
Proof. unfold py_tie. now rewrite py_lt_irrefl. Qed.

Lemma py_tie_sym (a b : K) : py_tie a b = py_tie b a.
Proof. unfold py_tie. apply andb_comm. Qed.

Lemma py_tie_spec (a b : K) :
  py_tie a b = true <-> py_lt a b = false /\ py_lt b a = false.
Proof.
  unfold py_tie. rewrite andb_true_iff, !negb_true_iff. reflexivity.
Qed.

Lemma py_tie_trans (a b c : K) :
  py_tie a b = true -> py_tie b c = true -> py_tie a c = true.
Proof.
  rewrite !py_tie_spec. intros [H1 H2] [H3 H4]. split.
  - exact (py_lt_negtrans _ _ _ H1 H3).
  - exact (py_lt_negtrans _ _ _ H4 H2).
Qed.

(** Two keys in one tie class are not strictly ordered. *)
Lemma py_tie_class_not_lt (a b k : K) :
  py_tie a k = true -> py_tie b k = true -> py_lt a b = false.
Proof.
  intros Ha Hb. rewrite py_tie_sym in Hb.
  pose proof (py_tie_trans _ _ _ Ha Hb) as Hab.
  apply py_tie_spec in Hab. apply Hab.
Qed.

Lemma py_lt_asym (a b : K) : py_lt a b = true -> py_lt b a = false.
Proof.
  intros Hab. destruct (py_lt b a) eqn:Hba; [|reflexivity].
  pose proof (py_lt_trans _ _ _ Hab Hba) as Haa.
  rewrite py_lt_irrefl in Haa. discriminate.
Qed.

End PyOrdFacts.

(** ** The sort is a stable, sorted permutation *)

Section ListSortFacts.
Context {A K : Type} {HK : PyOrd K} (key : A -> K).

Lemma insert_sorted_perm x l : Permutation (insert_sorted key x l) (x :: l).
Proof.
  induction l as [|y l IH]; simpl; [reflexivity|].
  destruct (py_lt (key y) (key x)); [|reflexivity].
  rewrite IH. apply perm_swap.
Qed.

Lemma stable_sort_perm l : Permutation (stable_sort key l) l.
Proof.
  induction l as [|x l IH]; simpl; [reflexivity|].
  rewrite insert_sorted_perm. now apply perm_skip.
Qed.

Lemma list_sort_perm reverse l : Permutation (list_sort key reverse l) l.
Proof.
  destruct reverse; simpl; [|apply stable_sort_perm].
  rewrite <- Permutation_rev, stable_sort_perm. symmetry. apply Permutation_rev.
Qed.

Lemma insert_sorted_ascending x l :
  StronglySorted (nondecreasing key) l ->
  StronglySorted (nondecreasing key) (insert_sorted key x l).
Proof.
  induction 1 as [|y l Hl IH Hy]; simpl.
  - repeat constructor.
  - destruct (py_lt (key y) (key x)) eqn:Hyx.
    + constructor; [exact IH|].
      rewrite List.Forall_forall in *. intros z Hz.
      apply (Permutation_in _ (insert_sorted_perm x l)) in Hz.
      destruct Hz as [<-|Hz]; [|now apply Hy].
      unfold nondecreasing. now apply py_lt_asym.
    + constructor; [now constructor|].
      constructor; [exact Hyx|].
      rewrite List.Forall_forall in *. intros z Hz. unfold nondecreasing.
      exact (py_lt_negtrans _ _ _ (Hy z Hz) Hyx).
Qed.

Lemma stable_sort_ascending l : StronglySorted (nondecreasing key) (stable_sort key l).
Proof.
  induction l as [|x l IH]; simpl; [constructor|].
  now apply insert_sorted_ascending.
Qed.

Lemma tie_class_insert_sorted k x l :
  tie_class key k (insert_sorted key x l) = tie_class key k (x :: l).
Proof.
  induction l as [|y l IH]; [reflexivity|].
  cbn [insert_sorted]. destruct (py_lt (key y) (key x)) eqn:Hyx; [|reflexivity].
  unfold tie_class in *. cbn [List.filter] in *. rewrite IH.
  destruct (py_tie (key x) k) eqn:Hx, (py_tie (key y) k) eqn:Hy; try reflexivity.
  rewrite (py_tie_class_not_lt _ _ _ Hy Hx) in Hyx. discriminate.
Qed.

Lemma stable_sort_keeps_ties l : keeps_ties key l (stable_sort key l).
Proof.
  intros k. induction l as [|x l IH]; [reflexivity|].
  cbn [stable_sort]. rewrite tie_class_insert_sorted.
  unfold tie_class in *. cbn [List.filter]. now rewrite IH.
Qed.

End ListSortFacts.

(** *** Reversal, and the descending sort as a flipped comparison *)

Lemma StronglySorted_app {A} (R : A -> A -> Prop) (l1 l2 : list A) :
  StronglySorted R l1 -> StronglySorted R l2 ->
  (forall a b, In a l1 -> In b l2 -> R a b) ->
  StronglySorted R (l1 ++ l2).
Proof.
  induction 1 as [|x l1 Hl1 IH Hx]; intros Hl2 Hcross; simpl; [exact Hl2|].
  constructor.
  - apply IH; [exact Hl2|]. intros a b Ha Hb. apply Hcross; [now right|exact Hb].
  - rewrite List.Forall_forall in *. intros z Hz.
    apply in_app_or in Hz. destruct Hz as [Hz|Hz]; [now apply Hx|].
    apply Hcross; [now left|exact Hz].
Qed.

Lemma StronglySorted_rev {A} (R : A -> A -> Prop) (l : list A) :
  StronglySorted R l -> StronglySorted (fun a b => R b a) (rev l).
Proof.
  induction 1 as [|x l Hl IH Hx]; simpl; [constructor|].
  apply StronglySorted_app; [exact IH|repeat constructor|].
  intros a b Ha [<-|[]]. rewrite List.Forall_forall in Hx.
  apply Hx. now apply in_rev.
Qed.

Section ListSortReverse.
Context {A K : Type} {HK : PyOrd K} (key : A -> K).

Lemma tie_class_app k (l1 l2 : list A) :
  tie_class key k (l1 ++ l2) = tie_class key k l1 ++ tie_class key k l2.
Proof. apply List.filter_app. Qed.

Lemma tie_class_rev k (l : list A) :
  tie_class key k (rev l) = rev (tie_class key k l).
Proof.
  induction l as [|x l IH]; [reflexivity|].
  cbn [rev]. rewrite tie_class_app, IH. unfold tie_class. cbn [List.filter].
  destruct (py_tie (key x) k); simpl; [reflexivity|now rewrite app_nil_r].
Qed.

Lemma tie_class_flip k (l : list A) :
  @tie_class A K (PyOrd_flip HK) key k l = tie_class key k l.
Proof.
  unfold tie_class. apply List.filter_ext. intros x.
  unfold py_tie. cbn [py_lt PyOrd_flip]. apply andb_comm.
Qed.

Theorem list_sort_keeps_ties reverse l : keeps_ties key l (list_sort key reverse l).
Proof.
  intros k. destruct reverse; cbn [list_sort].
  - rewrite tie_class_rev, stable_sort_keeps_ties, tie_class_rev.
    apply rev_involutive.
  - apply stable_sort_keeps_ties.
Qed.

Theorem list_sort_in_order reverse l :
  StronglySorted (in_order key reverse) (list_sort key reverse l).
Proof.
  destruct reverse; cbn [list_sort in_order].
  - apply (StronglySorted_rev (nondecreasing key)), stable_sort_ascending.
  - apply stable_sort_ascending.
Qed.

(** A list that is sorted and keeps the tie classes of [l] is determined
    by [l]: there is one stable way to sort. *)
Lemma stably_sorted_unique (l1 : list A) : forall l2,
  StronglySorted (nondecreasing key) l1 -> StronglySorted (nondecreasing key) l2 ->
  (forall k, tie_class key k l1 = tie_class key k l2) ->
  l1 = l2.
Proof.
  induction l1 as [|a l1 IH]; intros [|b l2] H1 H2 Hties.
  - reflexivity.
  - specialize (Hties (key b)). unfold tie_class in Hties. cbn in Hties.
    rewrite py_tie_refl in Hties. discriminate.
  - specialize (Hties (key a)). unfold tie_class in Hties. cbn in Hties.
    rewrite py_tie_refl in Hties. discriminate.
  - inversion H1 as [|? ? H1' Ha]; inversion H2 as [|? ? H2' Hb]; subst.
    rewrite List.Forall_forall in Ha, Hb.
    destruct (py_tie (key a) (key b)) eqn:Hab.
    + pose proof (Hties (key b)) as Hk. unfold tie_class in Hk. cbn in Hk.
      rewrite Hab, py_tie_refl in Hk. injection Hk as -> _.
      f_equal. apply IH; [exact H1'|exact H2'|].
      intros k. specialize (Hties k). unfold tie_class in *. cbn in Hties.
      destruct (py_tie (key b) k); [now injection Hties|exact Hties].
    + exfalso.
      assert (Hb1 : In b (a :: l1)).
      { pose proof (Hties (key b)) as Hk. unfold tie_class in Hk.
        eapply (proj1 (List.filter_In _ _ _)). rewrite Hk. cbn.
        rewrite py_tie_refl. now left. }
      assert (Ha2 : In a (b :: l2)).
      { pose proof (Hties (key a)) as Hk. unfold tie_class in Hk.
        eapply (proj1 (List.filter_In _ _ _)). rewrite <- Hk. cbn.
        rewrite py_tie_refl. now left. }
      destruct Hb1 as [->|Hb1]; [now rewrite py_tie_refl in Hab|].
      destruct Ha2 as [->|Ha2]; [now rewrite py_tie_refl in Hab|].
      apply Ha in Hb1. apply Hb in Ha2. unfold nondecreasing in *.
      unfold py_tie in Hab. rewrite Hb1, Ha2 in Hab. discriminate.
Qed.

End ListSortReverse.

(** [reverse=True] gives the stable sort under the flipped comparison, and
    not the reversal of the ascending result. *)
Theorem list_sort_reverse_flip {A K} {HK : PyOrd K} (key : A -> K) (l : list A) :
  list_sort key true l = @stable_sort A K (PyOrd_flip HK) key l.
Proof.
  apply (@stably_sorted_unique A K (PyOrd_flip HK) key).
  - apply (list_sort_in_order key true).
  - apply (@stable_sort_ascending A K (PyOrd_flip HK)).
  - intros k. rewrite !tie_class_flip.
    rewrite (list_sort_keeps_ties key true l k).
    rewrite <- (tie_class_flip key k l).
    rewrite <- (tie_class_flip key k (@stable_sort A K (PyOrd_flip HK) key l)).
    symmetry. apply (@stable_sort_keeps_ties A K (PyOrd_flip HK)).
Qed.

(** ** Python's float division *)

Section BinaryFloats.
Local Open Scope Q_scope.

Lemma round_half_even_cases x :
  round_half_even x = Qfloor x \/ round_half_even x = (Qfloor x + 1)%Z.
Proof.
  unfold round_half_even.
  destruct (x - inject_Z (Qfloor x) ?= 1 # 2); auto.
  destruct (Z.even (Qfloor x)); auto.
Qed.

Lemma inject_Z_succ (k : Z) : inject_Z (k + 1) == inject_Z k + 1.
Proof. rewrite inject_Z_plus. reflexivity. Qed.

Lemma round_half_even_near x :
  Qabs (inject_Z (round_half_even x) - x) <= 1 # 2.
Proof.
  pose proof (Qfloor_le x) as Hlo. pose proof (Qlt_floor x) as Hhi.
  rewrite inject_Z_succ in Hhi.
  apply Qabs_Qle_condition. unfold round_half_even.
  destruct (x - inject_Z (Qfloor x) ?= 1 # 2) eqn:Hc.
  - apply Qeq_alt in Hc.
    destruct (Z.even (Qfloor x)); rewrite ?inject_Z_succ; split; lra.
  - apply Qlt_alt in Hc. split; lra.
  - apply Qgt_alt in Hc. rewrite inject_Z_succ. split; lra.
Qed.

Lemma round_half_even_mono x y : x <= y -> (round_half_even x <= round_half_even y)%Z.
Proof.
  intros Hxy. pose proof (Qfloor_resp_le _ _ Hxy) as Hf.
  destruct (Z.eq_dec (Qfloor x) (Qfloor y)) as [Heq|Hne].
  - unfold round_half_even. rewrite <- Heq.
    destruct (x - inject_Z (Qfloor x) ?= 1 # 2) eqn:Hcx;
      destruct (y - inject_Z (Qfloor x) ?= 1 # 2) eqn:Hcy;
      first [apply Qeq_alt in Hcx | apply Qlt_alt in Hcx | apply Qgt_alt in Hcx];
      first [apply Qeq_alt in Hcy | apply Qlt_alt in Hcy | apply Qgt_alt in Hcy];
      destruct (Z.even (Qfloor x)); try lia; exfalso; lra.
  - destruct (round_half_even_cases x) as [-> | ->];
      destruct (round_half_even_cases y) as [-> | ->]; lia.
Qed.

Lemma round_half_even_ge (k : Z) x : inject_Z k <= x -> (k <= round_half_even x)%Z.
Proof.
  intros Hk. apply Qfloor_resp_le in Hk. rewrite Qfloor_Z in Hk.
  destruct (round_half_even_cases x) as [-> | ->]; lia.
Qed.

Lemma round_half_even_le (k : Z) x : x <= inject_Z k -> (round_half_even x <= k)%Z.
Proof.
  intros Hk. pose proof (Qfloor_resp_le _ _ Hk) as Hf. rewrite Qfloor_Z in Hf.
  destruct (Z.eq_dec (Qfloor x) k) as [Heq|Hne].
  - unfold round_half_even. rewrite Heq.
    destruct (x - inject_Z k ?= 1 # 2) eqn:Hc; try lia.
    + apply Qeq_alt in Hc. exfalso. lra.
    + apply Qgt_alt in Hc. exfalso. lra.
  - destruct (round_half_even_cases x) as [-> | ->]; lia.
Qed.

Lemma round_half_even_below_half (k : Z) x :
  x < inject_Z k + (1 # 2) -> (round_half_even x <= k)%Z.
Proof.
  intros Hk. pose proof (Qfloor_le x) as Hlo.
  assert (Hf : (Qfloor x <= k)%Z).
  { destruct (Z.le_gt_cases (Qfloor x) k) as [H|H]; [exact H|].
    assert (inject_Z (k + 1) <= inject_Z (Qfloor x)) by (rewrite <- Zle_Qle; lia).
    rewrite inject_Z_succ in H0. exfalso. lra. }
  destruct (Z.eq_dec (Qfloor x) k) as [Heq|Hne].
  - unfold round_half_even. rewrite Heq.
    destruct (x - inject_Z k ?= 1 # 2) eqn:Hc; try lia.
    + apply Qeq_alt in Hc. exfalso. lra.
    + apply Qgt_alt in Hc. exfalso. lra.
  - destruct (round_half_even_cases x) as [-> | ->]; lia.
Qed.

(** powers of two *)
Lemma pow2_pos e : 0 < pow2 e.
Proof. apply Qpower_0_lt. reflexivity. Qed.

Lemma pow2_plus a b : pow2 (a + b) == pow2 a * pow2 b.
Proof. apply Qpower_plus. discriminate. Qed.

Lemma pow2_le a b : (a <= b)%Z -> pow2 a <= pow2 b.
Proof. intros H. apply Qpower_le_compat_l; [exact H|discriminate]. Qed.

Lemma pow2_lt a b : (a < b)%Z -> pow2 a < pow2 b.
Proof. intros H. apply Qpower_lt_compat_l; [exact H|reflexivity]. Qed.

Lemma pow2_lt_inv a b : pow2 a < pow2 b -> (a < b)%Z.
Proof. intros H. apply (Qpower_lt_compat_l_inv 2); [exact H|reflexivity]. Qed.

Lemma pow2_Z (n : Z) : (0 <= n)%Z -> pow2 n == inject_Z (2 ^ n).
Proof. intros H. unfold pow2. now rewrite Zpower_Qpower. Qed.

(** [pow2 g] is a multiple of [pow2 e] when [e <= g] *)
Lemma pow2_on_grid e g :
  (e <= g)%Z -> pow2 g == inject_Z (2 ^ (g - e)) * pow2 e.
Proof.
  intros H. rewrite <- pow2_Z by lia. rewrite <- pow2_plus.
  now replace (g - e + e)%Z with g by lia.
Qed.

(** rounding to a grid *)
Lemma Qdiv_pow2_le e x y : x <= y -> x / pow2 e <= y / pow2 e.
Proof.
  intros H. unfold Qdiv. apply Qmult_le_compat_r; [exact H|].
  apply Qlt_le_weak, Qinv_lt_0_compat, pow2_pos.
Qed.

Lemma round_to_grid_mono e x y : x <= y -> round_to_grid e x <= round_to_grid e y.
Proof.
  intros H. unfold round_to_grid.
  apply Qmult_le_compat_r; [|apply Qlt_le_weak, pow2_pos].
  rewrite <- Zle_Qle. apply round_half_even_mono. now apply Qdiv_pow2_le.
Qed.

Lemma round_to_grid_le e (k : Z) x :
  x <= inject_Z k * pow2 e -> round_to_grid e x <= inject_Z k * pow2 e.
Proof.
  intros H. unfold round_to_grid.
  apply Qmult_le_compat_r; [|apply Qlt_le_weak, pow2_pos].
  rewrite <- Zle_Qle. apply round_half_even_le.
  apply Qle_shift_div_r; [apply pow2_pos|exact H].
Qed.

Lemma round_to_grid_ge e (k : Z) x :
  inject_Z k * pow2 e <= x -> inject_Z k * pow2 e <= round_to_grid e x.
Proof.
  intros H. unfold round_to_grid.
  apply Qmult_le_compat_r; [|apply Qlt_le_weak, pow2_pos].
  rewrite <- Zle_Qle. apply round_half_even_ge.
  apply Qle_shift_div_l; [apply pow2_pos|exact H].
Qed.

Lemma round_to_grid_near e x :
  Qabs (round_to_grid e x - x) <= pow2 e * (1 # 2).
Proof.
  pose proof (round_half_even_near (x / pow2 e)) as H.
  pose proof (pow2_pos e) as Hp.
  unfold round_to_grid.
  assert (E : inject_Z (round_half_even (x / pow2 e)) * pow2 e - x
              == (inject_Z (round_half_even (x / pow2 e)) - x / pow2 e) * pow2 e).
  { field. intros H0. rewrite H0 in Hp. discriminate. }
  rewrite E, Qabs_Qmult, (Qabs_pos (pow2 e)) by now apply Qlt_le_weak.
  rewrite (Qmult_comm (pow2 e)).
  apply Qmult_le_compat_r; [exact H|now apply Qlt_le_weak].
Qed.

(** the binary logarithm, rounded down *)
Lemma ilog2_spec x : 0 < x -> pow2 (ilog2 x) <= x /\ x < pow2 (ilog2 x + 1).
Proof.
  intros Hx. destruct x as [n d]. unfold ilog2. cbn [Qnum Qden].
  assert (Hn : (0 < n)%Z) by (unfold Qlt in Hx; cbn in Hx; lia).
  pose proof (Z.log2_spec n Hn) as [Hn1 Hn2].
  pose proof (Z.log2_spec (Zpos d) (Pos2Z.is_pos d)) as [Hd1 Hd2].
  pose proof (Z.log2_nonneg n) as Hln. pose proof (Z.log2_nonneg (Zpos d)) as Hld.
  set (ln := Z.log2 n) in *. set (ld := Z.log2 (Zpos d)) in *.
  assert (Hq : n # d == inject_Z n / inject_Z (Zpos d)) by apply Qmake_Qdiv.
  assert (Hdpos : 0 < inject_Z (Zpos d)) by reflexivity.
  rewrite <- !Z.add_1_r in Hn2, Hd2.
  rewrite Zle_Qle in Hn1, Hd1. rewrite Zlt_Qlt in Hn2, Hd2.
  rewrite <- pow2_Z in Hn1, Hn2, Hd1, Hd2 by lia.
  assert (Hlow : pow2 (ln - ld - 1) < n # d).
  { rewrite Hq. apply Qlt_shift_div_l; [exact Hdpos|].
    apply Qlt_le_trans with (pow2 (ln - ld - 1) * pow2 (ld + 1)).
    - apply Qmult_lt_l; [apply pow2_pos|exact Hd2].
    - rewrite <- pow2_plus. now replace (ln - ld - 1 + (ld + 1))%Z with ln by lia. }
  assert (Hhigh : n # d < pow2 (ln - ld + 1)).
  { rewrite Hq. apply Qlt_shift_div_r; [exact Hdpos|].
    apply Qlt_le_trans with (pow2 (ln + 1)); [exact Hn2|].
    replace (ln + 1)%Z with (ln - ld + 1 + ld)%Z by lia. rewrite pow2_plus.
    apply Qmult_le_l; [apply pow2_pos|exact Hd1]. }
  destruct (Qle_bool (pow2 (ln - ld)) (n # d)) eqn:Hc.
  - apply Qle_bool_iff in Hc. split; [exact Hc|exact Hhigh].
  - split.
    + now apply Qlt_le_weak.
    + replace (ln - ld - 1 + 1)%Z with (ln - ld)%Z by lia.
      apply Qnot_le_lt. intros Hle. apply Qle_bool_iff in Hle. congruence.
Qed.

Lemma ilog2_mono x y : 0 < x -> x <= y -> (ilog2 x <= ilog2 y)%Z.
Proof.
  intros Hx Hxy.
  destruct (ilog2_spec x Hx) as [Hx1 _].
  destruct (ilog2_spec y) as [_ Hy2]; [lra|].
  assert (H : pow2 (ilog2 x) < pow2 (ilog2 y + 1)) by lra.
  apply pow2_lt_inv in H. lia.
Qed.

(** rounding a positive rational to the binary64 grid *)
Lemma round_pos_nonneg x : 0 < x -> 0 <= round_pos x.
Proof.
  intros Hx. unfold round_pos.
  assert (E : inject_Z 0 * pow2 (float_exponent x) == 0) by ring.
  rewrite <- E. apply round_to_grid_ge. rewrite E.
  now apply Qlt_le_weak.
Qed.

Lemma round_pos_mono x y : 0 < x -> x <= y -> round_pos x <= round_pos y.
Proof.
  intros Hx Hxy. assert (Hy : 0 < y) by lra.
  pose proof (ilog2_mono x y Hx Hxy) as Hg.
  destruct (ilog2_spec x Hx) as [_ Hx2]. destruct (ilog2_spec y Hy) as [Hy1 _].
  unfold round_pos, float_exponent.
  destruct (Z.eq_dec (Z.max (-1074) (ilog2 x - 52)) (Z.max (-1074) (ilog2 y - 52)))
    as [Heq|Hne].
  - rewrite Heq. now apply round_to_grid_mono.
  - set (ex := Z.max (-1074) (ilog2 x - 52)) in *.
    set (ey := Z.max (-1074) (ilog2 y - 52)) in *.
    assert (Hex : (ex < ilog2 y)%Z) by lia.
    assert (Hey : (ey <= ilog2 y)%Z) by lia.
    assert (Hxb : x <= pow2 (ilog2 y)).
    { apply Qlt_le_weak, Qlt_le_trans with (pow2 (ilog2 x + 1)); [exact Hx2|].
      apply pow2_le. lia. }
    apply Qle_trans with (pow2 (ilog2 y)).
    + rewrite (pow2_on_grid ex (ilog2 y)) by lia.
      apply round_to_grid_le. rewrite <- pow2_on_grid by lia. exact Hxb.
    + rewrite (pow2_on_grid ey (ilog2 y)) at 1 by lia.
      apply round_to_grid_ge. rewrite <- pow2_on_grid by lia. exact Hy1.
Qed.

Lemma round_pos_near x :
  0 < x -> Qabs (round_pos x - x) <= x * pow2 (-53) + pow2 (-1075).
Proof.
  intros Hx. unfold round_pos.
  eapply Qle_trans; [apply round_to_grid_near|].
  destruct (ilog2_spec x Hx) as [Hlo _].
  pose proof (pow2_pos (-53)) as H53. pose proof (pow2_pos (-1075)) as H1075.
  unfold float_exponent.
  destruct (Z.max_spec (-1074) (ilog2 x - 52)) as [[_ ->]|[_ ->]].
  - replace (ilog2 x - 52)%Z with (ilog2 x + -53 + 1)%Z by lia.
    rewrite !pow2_plus.
    assert (E1 : pow2 1 == 2) by reflexivity. rewrite E1.
    assert (pow2 (ilog2 x) * pow2 (-53) <= x * pow2 (-53)).
    { apply Qmult_le_compat_r; [exact Hlo|lra]. }
    lra.
  - replace (-1074)%Z with (-1075 + 1)%Z by lia. rewrite pow2_plus.
    assert (E1 : pow2 1 == 2) by reflexivity. rewrite E1.
    assert (0 <= x * pow2 (-53)) by (apply Qmult_le_0_compat; lra).
    lra.
Qed.

(** ** Laws of [binary64] *)

Lemma nearest_double_mono x y : x <= y -> nearest_double x <= nearest_double y.
Proof.
  intros Hxy. unfold nearest_double.
  destruct (x ?= 0) eqn:Hx; destruct (y ?= 0) eqn:Hy;
    first [apply Qeq_alt in Hx | apply Qlt_alt in Hx | apply Qgt_alt in Hx];
    first [apply Qeq_alt in Hy | apply Qlt_alt in Hy | apply Qgt_alt in Hy];
    try (exfalso; lra); try apply Qle_refl.
  - now apply round_pos_nonneg.
  - pose proof (round_pos_nonneg (- x)). lra.
  - assert (round_pos (- y) <= round_pos (- x)) by (apply round_pos_mono; lra). lra.
  - pose proof (round_pos_nonneg (- x)). pose proof (round_pos_nonneg y). lra.
  - now apply round_pos_mono.
Qed.

Lemma nearest_double_near x :
  Qabs (nearest_double x - x) <= Qabs x * pow2 (-53) + pow2 (-1075).
Proof.
  pose proof (pow2_pos (-53)) as H53. pose proof (pow2_pos (-1075)) as H1075.
  unfold nearest_double.
  destruct (x ?= 0) eqn:Hx;
    first [apply Qeq_alt in Hx | apply Qlt_alt in Hx | apply Qgt_alt in Hx].
  - assert (E : Qabs (0 - x) == 0) by (rewrite Hx; reflexivity).
    rewrite E. pose proof (Qabs_nonneg x).
    assert (0 <= Qabs x * pow2 (-53)) by (apply Qmult_le_0_compat; lra). lra.
  - assert (E : - round_pos (- x) - x == - (round_pos (- x) - - x)) by ring.
    rewrite E, Qabs_opp, (Qabs_neg x) by lra.
    apply round_pos_near. lra.
  - rewrite (Qabs_pos x) by lra. now apply round_pos_near.
Qed.

(** Rounding never inverts an order. *)
Theorem binary64_mono x y fx fy :
  binary64 x = Some fx -> binary64 y = Some fy -> x <= y -> fx <= fy.
Proof.
  unfold binary64.
  destruct (Qle_bool (pow2 1024) (Qabs (nearest_double x))); [discriminate|].
  destruct (Qle_bool (pow2 1024) (Qabs (nearest_double y))); [discriminate|].
  intros [= <-] [= <-] Hxy. rewrite !Qred_correct. now apply nearest_double_mono.
Qed.

(** The rounding error is at most half a unit in the last place. *)
Theorem binary64_near x f :
  binary64 x = Some f -> Qabs (f - x) <= Qabs x * pow2 (-53) + pow2 (-1075).
Proof.
  unfold binary64.
  destruct (Qle_bool (pow2 1024) (Qabs (nearest_double x))); [discriminate|].
  intros [= <-]. rewrite Qred_correct. apply nearest_double_near.
Qed.

Lemma round_pos_overflow x :
  0 < x -> (pow2 1024 <= round_pos x <-> overflow_threshold <= x).
Proof.
  intros Hx. split.
  - intros Hbig. apply Qnot_lt_le. intros Hsmall.
    apply (Qle_not_lt _ _ Hbig). clear Hbig.
    destruct (ilog2_spec x Hx) as [Hlo Hhi].
    assert (Hg : (ilog2 x < 1024)%Z).
    { apply pow2_lt_inv. apply Qle_lt_trans with x; [exact Hlo|].
      apply Qlt_trans with overflow_threshold; [exact Hsmall|reflexivity]. }
    unfold round_pos, float_exponent.
    destruct (Z.eq_dec (ilog2 x) 1023%Z) as [E|NE].
    + rewrite E. change (Z.max (-1074) (1023 - 52))%Z with 971%Z.
      apply Qle_lt_trans with (inject_Z (2 ^ 53 - 1) * pow2 971); [|reflexivity].
      unfold round_to_grid.
      apply Qmult_le_compat_r; [|apply Qlt_le_weak, pow2_pos].
      rewrite <- Zle_Qle. apply round_half_even_below_half.
      apply Qlt_shift_div_r; [apply pow2_pos|].
      apply Qlt_le_trans with overflow_threshold; [exact Hsmall|].
      apply Qle_lteq. right. vm_compute. reflexivity.
    + set (e := Z.max (-1074) (ilog2 x - 52)).
      assert (He : (e <= 1023)%Z) by (unfold e; lia).
      apply Qle_lt_trans with (pow2 1023); [|reflexivity].
      rewrite (pow2_on_grid e 1023) by exact He.
      apply round_to_grid_le. rewrite <- pow2_on_grid by exact He.
      apply Qlt_le_weak, Qlt_le_trans with (pow2 (ilog2 x + 1)); [exact Hhi|].
      apply pow2_le. lia.
  - intros Hbig.
    apply Qle_trans with (round_pos overflow_threshold).
    + apply Qle_bool_iff. vm_compute. reflexivity.
    + apply round_pos_mono; [reflexivity|exact Hbig].
Qed.

(** A value overflows exactly from [2^1024 - 2^970] on. *)
Theorem binary64_overflow x :
  binary64 x = None <-> overflow_threshold <= Qabs x.
Proof.
  assert (Hnone : binary64 x = None <-> pow2 1024 <= Qabs (nearest_double x)).
  { unfold binary64. rewrite <- Qle_bool_iff.
    destruct (Qle_bool (pow2 1024) (Qabs (nearest_double x))); split; congruence. }
  rewrite Hnone. unfold nearest_double.
  destruct (x ?= 0) eqn:Hx;
    first [apply Qeq_alt in Hx | apply Qlt_alt in Hx | apply Qgt_alt in Hx].
  - rewrite Hx. split; intros H; exfalso; revert H; apply Qlt_not_le; reflexivity.
  - rewrite Qabs_opp, (Qabs_neg x) by lra.
    rewrite Qabs_pos by (apply round_pos_nonneg; lra).
    apply round_pos_overflow. lra.
  - rewrite (Qabs_pos x) by lra.
    rewrite Qabs_pos by now apply round_pos_nonneg.
    now apply round_pos_overflow.
Qed.

(** Two floats that are equal as numbers are the same float. *)
Lemma binary64_eq x y fx fy :
  binary64 x = Some fx -> binary64 y = Some fy -> fx == fy -> fx = fy.
Proof.
  unfold binary64.
  destruct (Qle_bool (pow2 1024) (Qabs (nearest_double x))); [discriminate|].
  destruct (Qle_bool (pow2 1024) (Qabs (nearest_double y))); [discriminate|].
  intros [= <-] [= <-] Heq. apply Qred_complete. now rewrite !Qred_correct in Heq.
Qed.

Lemma binary64_in_range x :
  Qabs x < overflow_threshold -> exists f, binary64 x = Some f.
Proof.
  intros Hx. destruct (binary64 x) as [f|] eqn:Hb; [now exists f|].
  apply binary64_overflow in Hb. exfalso. now apply (Qlt_not_le _ _ Hx).
Qed.

End BinaryFloats.

(** ** Facts about the primitives *)

Lemma list_contains_In x l : list_contains x l = true <-> In x l.
Proof.
  unfold list_contains. rewrite existsb_exists. split.
  - intros [y [Hy Heq]]. apply String.eqb_eq in Heq. now subst.
  - intros Hin. exists x. split; [exact Hin|apply String.eqb_refl].
Qed.

Lemma list_contains_not_In x l : list_contains x l = false <-> ~ In x l.
Proof. rewrite <- list_contains_In. now destruct (list_contains x l). Qed.

(** [l.remove(x)] on a list that holds [x] cuts out its first occurrence. *)
Lemma list_remove_first x l :
  In x l ->
  exists p1 p2, l = p1 ++ x :: p2 /\ ~ In x p1 /\ list_remove x l = Some (p1 ++ p2).
Proof.
  induction l as [|y l IH]; intros Hin; [destruct Hin|].
  cbn [list_remove]. destruct (String.eqb y x) eqn:Hyx.
  - apply String.eqb_eq in Hyx. subst y. exists [], l. auto.
  - apply String.eqb_neq in Hyx. destruct Hin as [->|Hin]; [congruence|].
    destruct (IH Hin) as (p1 & p2 & -> & Hp1 & ->).
    exists (y :: p1), p2. split; [reflexivity|]. split; [|reflexivity].
    intros [Heq|Hin']; [congruence|now apply Hp1].
Qed.

Lemma list_remove_absent x l : ~ In x l -> list_remove x l = None.
Proof.
  induction l as [|y l IH]; intros Hnin; [reflexivity|].
  cbn [list_remove]. destruct (String.eqb y x) eqn:Hyx.
  - apply String.eqb_eq in Hyx. subst. exfalso. apply Hnin. now left.
  - rewrite IH; [reflexivity|]. intros Hin. apply Hnin. now right.
Qed.

(** A key that is present has a first binding, and that is the one read
    and the one mutated. *)
Lemma dict_get_first {V} (d : list (string * V)) k v :
  dict_get d k = Some v <->
  exists d1 d2, d = d1 ++ (k, v) :: d2 /\ ~ In k (map fst d1).
Proof.
  split.
  - induction d as [|[k' v'] d IH]; [discriminate|].
    cbn [dict_get]. destruct (String.eqb k' k) eqn:Hk.
    + apply String.eqb_eq in Hk. subst k'. intros [= ->].
      exists [], d. auto.
    + apply String.eqb_neq in Hk. intros Hget.
      destruct (IH Hget) as (d1 & d2 & -> & Hd1).
      exists ((k', v') :: d1), d2. split; [reflexivity|].
      intros [Heq|Hin]; [now apply Hk|now apply Hd1].
  - intros (d1 & d2 & -> & Hd1).
    induction d1 as [|[k' v'] d1 IH]; cbn [dict_get app].
    + now rewrite String.eqb_refl.
    + destruct (String.eqb k' k) eqn:Hk.
      * apply String.eqb_eq in Hk. subst. exfalso. apply Hd1. now left.
      * apply IH. intros Hin. apply Hd1. now right.
Qed.

Lemma dict_get_None {V} (d : list (string * V)) k :
  dict_get d k = None <-> ~ In k (map fst d).
Proof.
  induction d as [|[k' v'] d IH]; cbn [dict_get map fst In]; [tauto|].
  destruct (String.eqb k' k) eqn:Hk.
  - apply String.eqb_eq in Hk. subst. split; [discriminate|tauto].
  - apply String.eqb_neq in Hk. rewrite IH. tauto.
Qed.

Lemma dict_alter_first {V} (f : V -> V) k v (d1 d2 : list (string * V)) :
  ~ In k (map fst d1) ->
  dict_alter f k (d1 ++ (k, v) :: d2) = d1 ++ (k, f v) :: d2.
Proof.
  induction d1 as [|[k' v'] d1 IH]; intros Hd1; cbn [dict_alter app].
  - now rewrite String.eqb_refl.
  - destruct (String.eqb k' k) eqn:Hk.
    + apply String.eqb_eq in Hk. subst. exfalso. apply Hd1. now left.
    + rewrite IH; [reflexivity|]. intros Hin. apply Hd1. now right.
Qed.

(** ** More facts about the sort *)

Lemma string_leb_ltb a b : String.leb a b = true <-> String.ltb b a = false.
Proof.
  rewrite string_ltb_ge. unfold String.leb.
  destruct (String.compare a b); split; congruence.
Qed.

Section ListSortMore.
Context {A K : Type} {HK : PyOrd K}.

Lemma insert_sorted_ext (key key' : A -> K) x l :
  (forall y, key y = key' y) -> insert_sorted key x l = insert_sorted key' x l.
Proof.
  intros Hk. induction l as [|y l IH]; [reflexivity|].
  cbn [insert_sorted]. now rewrite !Hk, IH.
Qed.

(** The sort only looks at the keys. *)
Lemma list_sort_ext (key key' : A -> K) reverse l :
  (forall y, key y = key' y) -> list_sort key reverse l = list_sort key' reverse l.
Proof.
  intros Hk.
  assert (Hs : forall l0, stable_sort key l0 = stable_sort key' l0).
  { induction l0 as [|x l0 IH]; [reflexivity|].
    cbn [stable_sort]. rewrite IH. now apply insert_sorted_ext. }
  unfold list_sort. now rewrite !Hs.
Qed.

Lemma filter_all (p : A -> bool) l :
  (forall x, In x l -> p x = true) -> List.filter p l = l.
Proof.
  induction l as [|x l IH]; intros Hp; [reflexivity|].
  cbn [List.filter]. rewrite (Hp x) by now left.
  f_equal. apply IH. intros y Hy. apply Hp. now right.
Qed.

(** A list whose keys all tie is returned as it is, in both directions. *)
Lemma list_sort_all_tied (key : A -> K) k reverse l :
  (forall x, In x l -> py_tie (key x) k = true) ->
  list_sort key reverse l = l.
Proof.
  intros Htie.
  pose proof (list_sort_keeps_ties key reverse l k) as Hk.
  unfold tie_class in Hk. rewrite (filter_all _ l Htie) in Hk.
  rewrite filter_all in Hk; [exact Hk|].
  intros x Hx. apply Htie.
  exact (Permutation_in _ (list_sort_perm key reverse l) Hx).
Qed.

Lemma tie_class_at_most_one (key : A -> K) k l :
  (forall a b : K, py_tie a b = true -> a = b) ->
  List.NoDup (map key l) ->
  (length (tie_class key k l) <= 1)%nat.
Proof.
  intros Heq. induction l as [|x l IH]; intros Hnd; [cbn; lia|].
  inversion Hnd as [|? ? Hx Hl]; subst.
  unfold tie_class in *. cbn [List.filter].
  destruct (py_tie (key x) k) eqn:Hxk; [|now apply IH].
  destruct (List.filter (fun y => py_tie (key y) k) l) as [|y rest] eqn:Hf;
    [cbn; lia|].
  exfalso. assert (Hy : In y (List.filter (fun y => py_tie (key y) k) l))
    by (rewrite Hf; now left).
  apply List.filter_In in Hy as [Hyl Hyk].
  apply Hx. rewrite py_tie_sym in Hyk.
  rewrite (Heq _ _ (py_tie_trans _ _ _ Hxk Hyk)).
  now apply in_map.
Qed.

Lemma rev_short (l : list A) : (length l <= 1)%nat -> rev l = l.
Proof. destruct l as [|a [|b l]]; cbn; intros; try reflexivity; lia. Qed.

End ListSortMore.

(** Without ties, sorting downwards is the reverse of sorting upwards. *)
Lemma list_sort_reverse_distinct {A K} {HK : PyOrd K} (key : A -> K) (l : list A) :
  (forall a b : K, py_tie a b = true -> a = b) ->
  List.NoDup (map key l) ->
  list_sort key true l = rev (list_sort key false l).
Proof.
  intros Heq Hnd. change (list_sort key false l) with (stable_sort key l).
  apply (@stably_sorted_unique A K (PyOrd_flip HK) key).
  - apply (list_sort_in_order key true).
  - apply (StronglySorted_rev (nondecreasing key)), stable_sort_ascending.
  - intros k. rewrite !tie_class_flip.
    rewrite (list_sort_keeps_ties key true l k).
    rewrite tie_class_rev, stable_sort_keeps_ties.
    symmetry. apply rev_short. now apply tie_class_at_most_one.
Qed.

Lemma string_tie_eq (a b : string) : py_tie a b = true -> a = b.
Proof.
  intros Htie. apply py_tie_spec in Htie as [Hab Hba].
  cbn [py_lt string_PyOrd] in *.
  apply String.leb_antisym; apply string_leb_ltb; assumption.
Qed.

(** ** Sorting by keys that may raise *)

Section ListSortBy.
Context {A K : Type} {HK : PyOrd K}.

Lemma compute_keys_returned (key : A -> outcome K) (k : A -> K) l :
  (forall x, In x l -> key x = Returned (k x)) ->
  compute_keys key l = Returned (map (fun x => (k x, x)) l).
Proof.
  induction l as [|x l IH]; intros Hk; [reflexivity|].
  cbn [compute_keys map]. rewrite (Hk x) by now left.
  rewrite IH; [reflexivity|]. intros y Hy. apply Hk. now right.
Qed.

Lemma compute_keys_raised (key : A -> outcome K) e l :
  (forall x, In x l -> (exists k, key x = Returned k) \/ key x = Raised e) ->
  (exists x, In x l /\ key x = Raised e) ->
  compute_keys key l = Raised e.
Proof.
  induction l as [|x l IH]; intros Hall (y & Hy & Hraise); [destruct Hy|].
  cbn [compute_keys].
  destruct (Hall x (or_introl eq_refl)) as [[k Hk]| ->]; [|reflexivity].
  rewrite Hk. rewrite IH; [reflexivity| |].
  - intros z Hz. apply Hall. now right.
  - destruct Hy as [<-|Hy]; [congruence|]. now exists y.
Qed.

Lemma insert_sorted_decorated (k : A -> K) x l :
  insert_sorted fst (k x, x) (map (fun y => (k y, y)) l)
  = map (fun y => (k y, y)) (insert_sorted k x l).
Proof.
  induction l as [|y l IH]; [reflexivity|].
  cbn [insert_sorted map fst]. destruct (py_lt (k y) (k x)); [|reflexivity].
  cbn [map]. now rewrite IH.
Qed.

Lemma stable_sort_decorated (k : A -> K) l :
  stable_sort fst (map (fun y => (k y, y)) l)
  = map (fun y => (k y, y)) (stable_sort k l).
Proof.
  induction l as [|x l IH]; [reflexivity|].
  cbn [stable_sort map]. now rewrite IH, insert_sorted_decorated.
Qed.

(** Sorting the pairs of key and element by their first component sorts
    the elements by key. *)
Lemma list_sort_decorated (k : A -> K) reverse l :
  map snd (list_sort fst reverse (map (fun y => (k y, y)) l))
  = list_sort k reverse l.
Proof.
  assert (Hsnd : forall l0 : list A, map snd (map (fun y => (k y, y)) l0) = l0).
  { intros l0. rewrite map_map. cbn [snd]. apply map_id. }
  destruct reverse; cbn [list_sort].
  - rewrite <- map_rev, stable_sort_decorated, <- map_rev. apply Hsnd.
  - rewrite stable_sort_decorated. apply Hsnd.
Qed.

Lemma list_sort_by_returned (key : A -> outcome K) (k : A -> K) reverse l :
  (forall x, In x l -> key x = Returned (k x)) ->
  list_sort_by key reverse l = Returned (list_sort k reverse l).
Proof.
  intros Hk. unfold list_sort_by.
  now rewrite (compute_keys_returned key k l Hk), list_sort_decorated.
Qed.

Lemma list_sort_by_raised (key : A -> outcome K) e reverse l :
  (forall x, In x l -> (exists k, key x = Returned k) \/ key x = Raised e) ->
  (exists x, In x l /\ key x = Raised e) ->
  list_sort_by key reverse l = Raised e.
Proof.
  intros Hall Hex. unfold list_sort_by.
  now rewrite (compute_keys_raised key e l Hall Hex).
Qed.

End ListSortBy.

(** ** The average score and the run of the sorted activity view *)

Lemma py_sum_fold_right l : py_sum l = fold_right Z.add 0 l.
Proof.
  unfold py_sum. rewrite <- fold_left_rev_right.
  assert (H : forall l0 acc, fold_right (fun y x => x + y) acc l0
                             = fold_right Z.add acc l0).
  { induction l0 as [|a l0 IH]; intros acc; cbn; [reflexivity|].
    rewrite IH. lia. }
  rewrite H. generalize 0. induction l as [|a l IH]; intros acc; [reflexivity|].
  cbn [rev fold_right]. rewrite fold_right_app. cbn [fold_right].
  rewrite IH. clear. revert acc. induction l as [|b l IH]; intros acc; cbn; [lia|].
  rewrite IH. lia.
Qed.

Lemma verified_scores_filter docs :
  verified_scores docs = map doc_score (List.filter doc_verified docs).
Proof.
  induction docs as [|doc docs IH]; [reflexivity|].
  cbn [verified_scores flat_map List.filter].
  destruct (doc_verified doc); cbn [app map]; now rewrite <- IH.
Qed.

(** The key of an activity is the float of the exact average of its
    verified documents, and the sort fails where there is no such float. *)
Lemma avg_score_float s activity_name :
  avg_score (activity_documents s) activity_name
  = match float_average s activity_name with
    | Some f => Returned f
    | None => Raised OverflowError
    end.
Proof.
  unfold avg_score, float_average, exact_average, verified_documents.
  rewrite verified_scores_filter.
  destruct (List.filter doc_verified
              (default [] (activity_documents s !! activity_name))) as [|d l].
  - vm_compute. reflexivity.
  - unfold true_div. rewrite py_sum_fold_right, length_map.
    cbn [length]. now rewrite (proj2 (Z.eqb_neq _ 0)) by lia.
Qed.

Lemma float_average_None s activity_name :
  float_average s activity_name = None
  <-> (overflow_threshold <= Qabs (exact_average s activity_name))%Q.
Proof. apply binary64_overflow. Qed.

(** Either every activity has a float average, or one overflows. *)
Lemma float_averages_dec s (l : list (string * Activity)) :
  (forall item, In item l -> exists f, float_average s (fst item) = Some f)
  \/ (exists item, In item l /\ float_average s (fst item) = None).
Proof.
  induction l as [|x l [IH|(y & Hy & Hnone)]].
  - left. intros item [].
  - destruct (float_average s (fst x)) as [f|] eqn:Hx.
    + left. intros item [<-|Hin]; [now exists f|now apply IH].
    + right. exists x. split; [now left|exact Hx].
  - right. exists y. split; [now right|exact Hnone].
Qed.

Lemma items_after_sort_score_returned s descending :
  (forall item, In item (activities s) ->
     exists f, float_average s (fst item) = Some f) ->
  items_after_sort "score" descending s
  = Returned (list_sort (fun x => default 0%Q (float_average s (fst x)))
                descending (activities s)).
Proof.
  intros Hall. unfold items_after_sort. cbn [String.eqb Ascii.eqb Bool.eqb].
  apply list_sort_by_returned. intros x Hx.
  rewrite avg_score_float. destruct (Hall x Hx) as [f ->]. reflexivity.
Qed.

Lemma items_after_sort_score_raised s descending :
  (exists item, In item (activities s) /\ float_average s (fst item) = None) ->
  items_after_sort "score" descending s = Raised OverflowError.
Proof.
  intros (y & Hy & Hnone). unfold items_after_sort.
  cbn [String.eqb Ascii.eqb Bool.eqb]. apply list_sort_by_raised.
  - intros x _. rewrite avg_score_float.
    destruct (float_average s (fst x)) as [f|]; eauto.
  - exists y. split; [exact Hy|]. now rewrite avg_score_float, Hnone.
Qed.

Lemma get_sorted_activities_run sort_by descending s :
  get_sorted_activities sort_by descending s
  = (match items_after_sort sort_by descending s with
     | Returned items => Returned (map activity_view items)
     | Raised e => Raised e
     end, s).
Proof.
  unfold get_sorted_activities, items_after_sort. run_handler.
  destruct (String.eqb sort_by "name"); [reflexivity|].
  destruct (String.eqb sort_by "participants"); [reflexivity|].
  destruct (String.eqb sort_by "score"); [|reflexivity].
  destruct (list_sort_by (fun x => avg_score (activity_documents s) (fst x))
              descending (activities s)); reflexivity.
Qed.

Lemma get_sorted_activities_store sort_by descending s :
  snd (get_sorted_activities sort_by descending s) = s.
Proof. now rewrite get_sorted_activities_run. Qed.

(** A string outside the three the handler tests for selects no branch. *)
Lemma items_after_sort_unknown_key sort_by descending s :
  sort_by <> "name" -> sort_by <> "participants" -> sort_by <> "score" ->
  items_after_sort sort_by descending s = Returned (activities s).
Proof.
  intros H1 H2 H3. unfold items_after_sort.
  apply String.eqb_neq in H1, H2, H3. now rewrite H1, H2, H3.
Qed.

(** Whatever the handler returns is a permutation of the activities. *)
Lemma items_after_sort_perm sort_by descending s items :
  items_after_sort sort_by descending s = Returned items ->
  Permutation items (activities s).
Proof.
  unfold items_after_sort.
  destruct (String.eqb sort_by "name");
    [intros [= <-]; apply list_sort_perm|].
  destruct (String.eqb sort_by "participants");
    [intros [= <-]; apply list_sort_perm|].
  destruct (String.eqb sort_by "score"); [|now intros [= <-]].
  intros Hrun.
  destruct (float_averages_dec s (activities s)) as [Hall|Hex].
  - change (items_after_sort "score" descending s = Returned items) in Hrun.
    rewrite (items_after_sort_score_returned s descending Hall) in Hrun.
    injection Hrun as <-. apply list_sort_perm.
  - change (items_after_sort "score" descending s = Returned items) in Hrun.
    rewrite (items_after_sort_score_raised s descending Hex) in Hrun. discriminate.
Qed.

(** ** Enrolment *)

(** C3: signup raises NotFound for an absent activity and Conflict for an
    email already enrolled, the store staying as it was; otherwise it returns
    and the only change is that the email is appended to that activity's
    participants, whatever max_participants is (in particular when the
    activity is already full or over capacity). *)
Theorem signup_for_activity_spec (s : Store) (activity_name email : string) :
  (dict_get (activities s) activity_name = None ->
   signup_for_activity activity_name email s
   = (Raised (NotFound "Activity not found"), s))
  /\ (forall a, dict_get (activities s) activity_name = Some a ->
      In email (participants a) ->
      signup_for_activity activity_name email s
      = (Raised (Conflict "Student is already signed up"), s))
  /\ (forall a, dict_get (activities s) activity_name = Some a ->
      ~ In email (participants a) ->
      exists d1 d2,
        activities s = d1 ++ (activity_name, a) :: d2
        /\ ~ In activity_name (map fst d1)
        /\ signup_for_activity activity_name email s
           = (Returned (mkMessage ("Signed up " +:+ email +:+ " for " +:+ activity_name)),
              mkStore
                (d1 ++ (activity_name, with_participants a (participants a ++ [email])) :: d2)
                (activity_documents s)))
  /\ (forall a, dict_get (activities s) activity_name = Some a ->
      ~ In email (participants a) ->
      max_participants a <= Z.of_nat (length (participants a)) ->
      exists s', signup_for_activity activity_name email s
                 = (Returned (mkMessage ("Signed up " +:+ email +:+ " for " +:+ activity_name)), s')).
Proof.
  assert (Hok : forall a, dict_get (activities s) activity_name = Some a ->
      ~ In email (participants a) ->
      exists d1 d2,
        activities s = d1 ++ (activity_name, a) :: d2
        /\ ~ In activity_name (map fst d1)
        /\ signup_for_activity activity_name email s
           = (Returned (mkMessage ("Signed up " +:+ email +:+ " for " +:+ activity_name)),
              mkStore
                (d1 ++ (activity_name, with_participants a (participants a ++ [email])) :: d2)
                (activity_documents s))).
  { intros a Hget Hnin.
    destruct (proj1 (dict_get_first _ _ _) Hget) as (d1 & d2 & Hd & Hd1).
    exists d1, d2. split; [exact Hd|]. split; [exact Hd1|].
    unfold signup_for_activity. run_handler. rewrite Hget.
    apply list_contains_not_In in Hnin. rewrite Hnin. run_handler.
    rewrite Hd, dict_alter_first by exact Hd1. reflexivity. }
  repeat split.
  - intros Hget. unfold signup_for_activity. run_handler. now rewrite Hget.
  - intros a Hget Hin. unfold signup_for_activity. run_handler. rewrite Hget.
    apply list_contains_In in Hin. now rewrite Hin.
  - exact Hok.
  - intros a Hget Hnin _. destruct (Hok a Hget Hnin) as (d1 & d2 & _ & _ & ->).
    eauto.
Qed.

(** C4: unregister raises NotFound for an absent activity and Conflict for
    an email that is not enrolled, the store staying as it was; for an
    enrolled email it cuts the first occurrence out of the participant list,
    the participants before and after it keeping their order, and changes
    nothing else. *)
Theorem unregister_from_activity_spec (s : Store) (activity_name email : string) :
  (dict_get (activities s) activity_name = None ->
   unregister_from_activity activity_name email s
   = (Raised (NotFound "Activity not found"), s))
  /\ (forall a, dict_get (activities s) activity_name = Some a ->
      ~ In email (participants a) ->
      unregister_from_activity activity_name email s
      = (Raised (Conflict "Student is not signed up for this activity"), s))
  /\ (forall a, dict_get (activities s) activity_name = Some a ->
      In email (participants a) ->
      exists d1 d2 p1 p2,
        activities s = d1 ++ (activity_name, a) :: d2
        /\ ~ In activity_name (map fst d1)
        /\ participants a = p1 ++ email :: p2
        /\ ~ In email p1
        /\ unregister_from_activity activity_name email s
           = (Returned (mkMessage ("Unregistered " +:+ email +:+ " from " +:+ activity_name)),
              mkStore (d1 ++ (activity_name, with_participants a (p1 ++ p2)) :: d2)
                (activity_documents s))).
Proof.
  repeat split.
  - intros Hget. unfold unregister_from_activity. run_handler. now rewrite Hget.
  - intros a Hget Hnin. unfold unregister_from_activity. run_handler.
    rewrite Hget. apply list_contains_not_In in Hnin. now rewrite Hnin.
  - intros a Hget Hin.
    destruct (proj1 (dict_get_first _ _ _) Hget) as (d1 & d2 & Hd & Hd1).
    destruct (list_remove_first _ _ Hin) as (p1 & p2 & Hp & Hp1 & Hrm).
    exists d1, d2, p1, p2. repeat (split; [assumption|]).
    unfold unregister_from_activity. run_handler. rewrite Hget.
    apply list_contains_In in Hin. rewrite Hin. cbn [negb]. rewrite Hrm.
    run_handler. rewrite Hd, dict_alter_first by exact Hd1. reflexivity.
Qed.

(** ** Verification of documents *)

Lemma doc_matches_eqb email filename doc :
  String.eqb (doc_email doc) email && String.eqb (doc_filename doc) filename = true
  <-> doc_matches email filename doc.
Proof.
  unfold doc_matches. now rewrite andb_true_iff, !String.eqb_eq.
Qed.

Lemma mark_first_None email filename docs :
  mark_first email filename docs = None <->
  (forall d, In d docs -> ~ doc_matches email filename d).
Proof.
  induction docs as [|doc docs IH]; cbn [mark_first In]; [tauto|].
  destruct (String.eqb (doc_email doc) email && String.eqb (doc_filename doc) filename)
    eqn:Hm.
  - apply doc_matches_eqb in Hm. split; [discriminate|].
    intros Hall. exfalso. apply (Hall doc); auto.
  - apply not_true_iff_false in Hm. rewrite doc_matches_eqb in Hm.
    destruct (mark_first email filename docs) eqn:Hrest; cbn [option_map].
    + split; [discriminate|]. intros Hall.
      assert (Hcontra : Some l = None); [|discriminate].
      apply IH. intros d Hd. apply Hall. now right.
    + split; [|reflexivity]. intros _ d [<-|Hd]; [exact Hm|].
      exact (proj1 IH eq_refl d Hd).
Qed.

Lemma mark_first_Some email filename l1 d l2 :
  doc_matches email filename d ->
  (forall d', In d' l1 -> ~ doc_matches email filename d') ->
  mark_first email filename (l1 ++ d :: l2) = Some (l1 ++ mark_verified d :: l2).
Proof.
  intros Hd. induction l1 as [|doc l1 IH]; intros Hl1; cbn [mark_first app].
  - apply doc_matches_eqb in Hd. now rewrite Hd.
  - destruct (String.eqb (doc_email doc) email && String.eqb (doc_filename doc) filename)
      eqn:Hm.
    + apply doc_matches_eqb in Hm. exfalso. apply (Hl1 doc); auto. now left.
    + rewrite IH; [reflexivity|]. intros d' Hd'. apply Hl1. now right.
Qed.

Lemma mark_first_again email filename docs docs' :
  mark_first email filename docs = Some docs' ->
  mark_first email filename docs' = Some docs'.
Proof.
  revert docs'. induction docs as [|doc docs IH]; intros docs'; [discriminate|].
  cbn [mark_first].
  destruct (String.eqb (doc_email doc) email && String.eqb (doc_filename doc) filename)
    eqn:Hm.
  - intros [= <-]. cbn [mark_first doc_email doc_filename]. now rewrite Hm.
  - destruct (mark_first email filename docs) as [rest|] eqn:Hrest; [|discriminate].
    cbn [option_map]. intros [= <-]. cbn [mark_first]. rewrite Hm.
    now rewrite (IH rest eq_refl).
Qed.

(** C2: verify marks the first document, in insertion order, of the named
    activity whose email and filename both match, and changes nothing else:
    the other documents of that list, the lists of other activities and the
    activities with their participants stay as they were.  When no document
    matches it raises NotFound and the store stays as it was.  Nothing is
    asked of the activities dict: the name need not be a known activity. *)
Theorem verify_document_spec (s : Store) (activity_name email filename : string) :
  ((forall d, In d (default [] (activity_documents s !! activity_name)) ->
      ~ doc_matches email filename d) ->
   verify_document activity_name email filename s
   = (Raised (NotFound "Document not found"), s))
  /\ (forall l1 d l2,
      default [] (activity_documents s !! activity_name) = l1 ++ d :: l2 ->
      doc_matches email filename d ->
      (forall d', In d' l1 -> ~ doc_matches email filename d') ->
      exists s',
        verify_document activity_name email filename s
        = (Returned (mkMessage ("Verified " +:+ filename +:+ " for " +:+ email
                                +:+ " in " +:+ activity_name)), s')
        /\ activities s' = activities s
        /\ activity_documents s' !! activity_name = Some (l1 ++ mark_verified d :: l2)
        /\ (forall n, n <> activity_name ->
            activity_documents s' !! n = activity_documents s !! n)).
Proof.
  split.
  - intros Hnone. unfold verify_document. run_handler.
    destruct (activity_documents s !! activity_name) as [docs|]; [|reflexivity].
    simpl in Hnone. apply mark_first_None in Hnone. now rewrite Hnone.
  - intros l1 d l2 Hdocs Hd Hl1. unfold verify_document. run_handler.
    destruct (activity_documents s !! activity_name) as [docs|]; simpl in Hdocs.
    + subst docs. rewrite (mark_first_Some _ _ _ _ _ Hd Hl1). run_handler.
      eexists. split; [reflexivity|]. cbn [activities activity_documents].
      split; [reflexivity|]. split; [apply lookup_insert_eq|].
      intros n Hn. now apply lookup_insert_ne.
    + destruct l1; discriminate.
Qed.

(** C9: a verify that returned can be repeated at once: the second call
    returns the same message and leaves the store exactly as the first call
    left it. *)
Theorem verify_document_idempotent (s s1 : Store)
  (activity_name email filename : string) (r : MessageResponse) :
  verify_document activity_name email filename s = (Returned r, s1) ->
  verify_document activity_name email filename s1 = (Returned r, s1).
Proof.
  unfold verify_document. run_handler.
  destruct (activity_documents s !! activity_name) as [docs|]; [|discriminate].
  destruct (mark_first email filename docs) as [docs'|] eqn:Hmark; [|discriminate].
  run_handler. intros [= <- <-]. cbn [activity_documents activities].
  rewrite lookup_insert_eq, (mark_first_again _ _ _ _ Hmark).
  cbn [activity_documents activities]. now rewrite insert_insert_eq.
Qed.

Lemma verify_document_idempotent_witness :
  verify_document "Chess Club" "michael@mergington.edu" "medal.pdf"
    (snd (verify_document "Chess Club" "michael@mergington.edu" "medal.pdf"
            one_document_store))
  = (Returned (mkMessage "Verified medal.pdf for michael@mergington.edu in Chess Club"),
     snd (verify_document "Chess Club" "michael@mergington.edu" "medal.pdf"
            one_document_store)).
Proof.
  apply (verify_document_idempotent one_document_store).
  vm_compute. reflexivity.
Defined.

(** ** The participant lists never hold an email twice *)

Lemma dict_get_In {V} (d : list (string * V)) k v :
  dict_get d k = Some v -> In (k, v) d.
Proof.
  intros Hget. apply dict_get_first in Hget as (d1 & d2 & -> & _).
  apply in_or_app. right. now left.
Qed.

Lemma dict_alter_Forall {V} (P : string * V -> Prop) (f : V -> V) k d :
  Forall P d ->
  (forall v, dict_get d k = Some v -> P (k, f v)) ->
  Forall P (dict_alter f k d).
Proof.
  induction 1 as [|[k' v'] d Hhd Htl IH]; intros Hf; cbn [dict_alter]; [constructor|].
  cbn [dict_get] in Hf. destruct (String.eqb k' k) eqn:Hk.
  - apply String.eqb_eq in Hk. subst k'. constructor; [now apply Hf|exact Htl].
  - constructor; [exact Hhd|now apply IH].
Qed.

Lemma NoDup_append_new (x : string) l :
  List.NoDup l -> ~ In x l -> List.NoDup (l ++ [x]).
Proof.
  intros Hl Hx. apply (Permutation_NoDup (Permutation_cons_append l x)).
  now constructor.
Qed.

Lemma signup_for_activity_keeps_invariant n e s :
  no_duplicate_participants s ->
  no_duplicate_participants (snd (signup_for_activity n e s)).
Proof.
  intros Hinv. unfold signup_for_activity. run_handler.
  destruct (dict_get (activities s) n) as [a|] eqn:Hget; [|exact Hinv].
  destruct (list_contains e (participants a)) eqn:Hin; [exact Hinv|].
  run_handler. unfold no_duplicate_participants in *. cbn [activities].
  apply dict_alter_Forall; [exact Hinv|].
  intros v Hv. rewrite Hget in Hv. injection Hv as <-. cbn [snd participants].
  apply NoDup_append_new; [|now apply list_contains_not_In].
  apply dict_get_In in Hget. rewrite List.Forall_forall in Hinv.
  exact (Hinv _ Hget).
Qed.

Lemma unregister_from_activity_keeps_invariant n e s :
  no_duplicate_participants s ->
  no_duplicate_participants (snd (unregister_from_activity n e s)).
Proof.
  intros Hinv. unfold unregister_from_activity. run_handler.
  destruct (dict_get (activities s) n) as [a|] eqn:Hget; [|exact Hinv].
  destruct (list_contains e (participants a)) eqn:Hin; [|exact Hinv].
  cbn [negb]. apply list_contains_In in Hin.
  destruct (list_remove_first _ _ Hin) as (p1 & p2 & Hp & _ & ->).
  run_handler. unfold no_duplicate_participants in *. cbn [activities].
  apply dict_alter_Forall; [exact Hinv|].
  intros v _. cbn [snd participants].
  apply dict_get_In in Hget. rewrite List.Forall_forall in Hinv.
  specialize (Hinv _ Hget). cbn [snd] in Hinv. rewrite Hp in Hinv.
  now apply List.NoDup_remove_1 in Hinv.
Qed.

Lemma serve_keeps_invariant r s :
  no_duplicate_participants s ->
  no_duplicate_participants (serve r s).
Proof.
  intros Hinv. destruct r; cbn [serve]; rewrite ?get_sorted_activities_store.
  - exact Hinv.
  - exact Hinv.
  - now apply signup_for_activity_keeps_invariant.
  - now apply unregister_from_activity_keeps_invariant.
  - unfold upload_document. run_handler.
    destruct (dict_get (activities s) activity_name); exact Hinv.
  - unfold get_activity_documents. run_handler.
    destruct (dict_get (activities s) activity_name); exact Hinv.
  - unfold verify_document. run_handler.
    destruct (activity_documents s !! activity_name) as [docs|]; [|exact Hinv].
    destruct (mark_first email filename docs); exact Hinv.
  - exact Hinv.
  - unfold get_sorted_participants. run_handler.
    destruct (dict_get (activities s) activity_name); [|exact Hinv].
    run_handler.
    destruct (String.eqb sort_by "name"); [exact Hinv|].
    destruct (String.eqb sort_by "score"); exact Hinv.
Qed.

Lemma seed_no_duplicate_participants : no_duplicate_participants seed.
Proof.
  unfold no_duplicate_participants.
  assert (H : Forall (fun item => NoDup (participants (snd item))) (activities seed)).
  { apply (bool_decide_unpack _). vm_compute. exact I. }
  eapply List.Forall_impl; [|exact H].
  intros item Hitem. now apply NoDup_ListNoDup.
Qed.

(** C8: no email occurs twice in a participant list.  Every request
    (signup, unregister, upload, verify and the read-only ones) keeps the
    property, whether it returns or raises, so it holds in every store
    reachable from the seed data. *)
Theorem no_duplicate_participants_invariant :
  (forall s r, no_duplicate_participants s ->
               no_duplicate_participants (serve r s))
  /\ (forall s, reachable s -> no_duplicate_participants s).
Proof.
  split.
  - intros s r. apply serve_keeps_invariant.
  - induction 1 as [|s r Hs IH].
    + exact seed_no_duplicate_participants.
    + now apply serve_keeps_invariant.
Qed.

(** ** Sorted views *)

Lemma StronglySorted_weaken {A} (R R' : A -> A -> Prop) (l : list A) :
  (forall a b, R a b -> R' a b) -> StronglySorted R l -> StronglySorted R' l.
Proof.
  intros HR. induction 1 as [|x l Hl IH Hx]; constructor; [exact IH|].
  eapply List.Forall_impl; [|exact Hx]. intros b. apply HR.
Qed.

Lemma filter_eq_app {A} (p : A -> bool) (l : list A) : forall u v,
  List.filter p l = u ++ v ->
  exists l1 l2, l = l1 ++ l2 /\ List.filter p l1 = u /\ List.filter p l2 = v.
Proof.
  induction l as [|a l IH]; intros u v Hf; cbn [List.filter] in Hf.
  - symmetry in Hf. apply app_eq_nil in Hf as [-> ->]. now exists [], [].
  - destruct (p a) eqn:Hpa.
    + destruct u as [|b u]; cbn [app] in Hf.
      * exists [], (a :: l). cbn [List.filter app]. rewrite Hpa. auto.
      * injection Hf as <- Hf. destruct (IH _ _ Hf) as (l1 & l2 & -> & <- & <-).
        exists (a :: l1), l2. cbn [List.filter app]. rewrite Hpa. auto.
    + destruct (IH _ _ Hf) as (l1 & l2 & -> & <- & <-).
      exists (a :: l1), l2. cbn [List.filter app]. rewrite Hpa. auto.
Qed.

Lemma filter_eq_cons {A} (p : A -> bool) (l : list A) x v :
  List.filter p l = x :: v ->
  exists l1 l2, l = l1 ++ x :: l2 /\ List.filter p l2 = v.
Proof.
  induction l as [|a l IH]; intros Hf; cbn [List.filter] in Hf; [discriminate|].
  destruct (p a) eqn:Hpa.
  - injection Hf as -> Hf. now exists [], l.
  - destruct (IH Hf) as (l1 & l2 & -> & <-). now exists (a :: l1), l2.
Qed.

(** A sort that keeps the tie classes never swaps two tied entries. *)
Lemma keeps_ties_occurs_before {A K} `{PyOrd K} (key : A -> K) (inp out : list A) x y :
  keeps_ties key inp out ->
  py_tie (key x) (key y) = true ->
  occurs_before x y inp -> occurs_before x y out.
Proof.
  intros Hties Hxy (l1 & l2 & l3 & ->).
  specialize (Hties (key y)). unfold tie_class in Hties.
  rewrite List.filter_app in Hties. cbn [List.filter] in Hties.
  rewrite Hxy, List.filter_app in Hties. cbn [List.filter] in Hties.
  rewrite py_tie_refl in Hties.
  apply filter_eq_app in Hties as (m1 & m2 & -> & _ & Hm2).
  apply filter_eq_cons in Hm2 as (m3 & m4 & -> & Hm4).
  apply filter_eq_app in Hm4 as (m5 & m6 & -> & _ & Hm6).
  apply filter_eq_cons in Hm6 as (m7 & m8 & -> & _).
  exists (m1 ++ m3), (m5 ++ m7), m8. now rewrite <- !app_assoc.
Qed.

(** Keys that tie, read as equalities. *)
Lemma string_tie_eqb (a b : string) : py_tie a b = String.eqb a b.
Proof.
  destruct (String.eqb_spec a b) as [->|Hne]; [apply py_tie_refl|].
  destruct (py_tie a b) eqn:H; [|reflexivity]. now apply string_tie_eq in H.
Qed.

Lemma Z_tie_eqb (a b : Z) : py_tie a b = Z.eqb a b.
Proof.
  unfold py_tie. cbn [py_lt Z_PyOrd].
  destruct (Z.eqb_spec a b), (Z.ltb_spec a b), (Z.ltb_spec b a);
    cbn; try reflexivity; lia.
Qed.

Lemma count_tie_eqb (n m : nat) : py_tie (Z.of_nat n) (Z.of_nat m) = Nat.eqb n m.
Proof.
  rewrite Z_tie_eqb.
  destruct (Nat.eqb_spec n m), (Z.eqb_spec (Z.of_nat n) (Z.of_nat m));
    try reflexivity; lia.
Qed.

Lemma Q_tie_eqb (a b : Q) : py_tie a b = Qeq_bool a b.
Proof.
  unfold py_tie. cbn [py_lt Q_PyOrd]. unfold Qltb. rewrite !negb_involutive.
  destruct (Qeq_bool a b) eqn:He.
  - apply Qeq_bool_iff in He. apply andb_true_iff.
    split; apply Qle_bool_iff; rewrite He; apply Qle_refl.
  - destruct (Qle_bool b a) eqn:H1, (Qle_bool a b) eqn:H2; try reflexivity.
    apply Qle_bool_iff in H1, H2.
    assert (Heq : (a == b)%Q) by now apply Qle_antisym.
    apply Qeq_bool_iff in Heq. congruence.
Qed.

Lemma score_key_default x : score_key x = default 0 (info_score x).
Proof. unfold score_key. now destruct (info_score x). Qed.

Lemma StronglySorted_weaken_in {A} (R R' : A -> A -> Prop) (l : list A) :
  (forall a b, In a l -> In b l -> R a b -> R' a b) ->
  StronglySorted R l -> StronglySorted R' l.
Proof.
  intros HR Hs. induction Hs as [|x l Hl IH Hx]; constructor.
  - apply IH. intros a b Ha Hb. apply HR; now right.
  - rewrite List.Forall_forall in *. intros b Hb.
    apply HR; [now left|now right|now apply Hx].
Qed.

Lemma activity_view_inj x y : activity_view x = activity_view y -> x = y.
Proof.
  destruct x as [k [d sc m ps]], y as [k' [d' sc' m' ps']]. cbn.
  now intros [= -> -> -> -> ->].
Qed.

Lemma map_activity_view_inj l : forall l',
  map activity_view l = map activity_view l' -> l = l'.
Proof.
  induction l as [|x l IH]; intros [|y l']; cbn [map]; try discriminate;
    [reflexivity|].
  intros [= Hx Hl]. f_equal; [now apply activity_view_inj|now apply IH].
Qed.

(** C7 (as the code behaves): a [sort_by] outside name / participants /
    score is not rejected.  On the seed data, ["popularity"] returns the
    activities unsorted, in insertion order. *)
Theorem get_sorted_activities_unknown_key_returns :
  get_sorted_activities "popularity" false seed
  = (Returned (map activity_view seed_activities), seed).
Proof.
  rewrite get_sorted_activities_run, items_after_sort_unknown_key; [reflexivity| | |];
    discriminate.
Qed.

(** C10 (as the code behaves): the sorted view does not always return.
    After an upload with score [10^400] for the first seed activity and its
    verification, a store the requests reach from the seed data, sorting by
    score raises [OverflowError] in both directions instead of returning the
    activities. *)
Theorem get_sorted_activities_overflow :
  reachable overflow_store
  /\ get_sorted_activities "score" false overflow_store
     = (Raised OverflowError, overflow_store)
  /\ get_sorted_activities "score" true overflow_store
     = (Raised OverflowError, overflow_store).
Proof.
  split; [apply reachable_step, reachable_step, reachable_seed|].
  assert (Hover : exists item, In item (activities overflow_store)
                               /\ float_average overflow_store (fst item) = None).
  { eexists. split; [left; reflexivity|]. vm_compute. reflexivity. }
  split; rewrite get_sorted_activities_run;
    now rewrite (items_after_sort_score_raised _ _ Hover).
Qed.

(** *** Sorting activities by average score *)

Lemma verified_documents_None s activity_name :
  activity_documents s !! activity_name = None ->
  verified_documents s activity_name = [].
Proof. intros H. unfold verified_documents. now rewrite H. Qed.

Lemma float_average_verified s s' activity_name :
  verified_documents s' activity_name = verified_documents s activity_name ->
  float_average s' activity_name = float_average s activity_name.
Proof.
  intros H. unfold float_average, exact_average. now rewrite H.
Qed.

Lemma avg_score_no_verified s activity_name :
  verified_documents s activity_name = [] ->
  avg_score (activity_documents s) activity_name = Returned 0%Q.
Proof.
  intros H. rewrite avg_score_float. unfold float_average, exact_average.
  rewrite H. vm_compute. reflexivity.
Qed.

Lemma averages_in_range_float s :
  averages_in_range s ->
  forall item, In item (activities s) ->
    exists f, float_average s (fst item) = Some f.
Proof.
  intros Hr item Hin. apply binary64_in_range. now apply Hr.
Qed.

(** Sorted by the float keys means sorted by average, up to rounding. *)
Lemma average_in_order_of_keys descending s x y fx fy :
  float_average s (fst x) = Some fx ->
  float_average s (fst y) = Some fy ->
  in_order (fun z => default 0%Q (float_average s (fst z))) descending x y ->
  average_in_order descending s x y.
Proof.
  intros Hx Hy Hord. exists fx, fy. split; [exact Hx|]. split; [exact Hy|].
  destruct descending; cbn [in_order] in Hord;
    unfold nonincreasing, nondecreasing in Hord;
    rewrite Hx, Hy in Hord; cbn [default from_option id py_lt Q_PyOrd] in Hord;
    apply Qltb_ge in Hord; (split; [exact Hord|]).
  - destruct (Qlt_le_dec (exact_average s (fst y)) (exact_average s (fst x)))
      as [Hlt|Hle]; [now right|left].
    apply (binary64_eq _ _ _ _ Hx Hy). apply Qle_antisym; [|exact Hord].
    exact (binary64_mono _ _ _ _ Hx Hy Hle).
  - destruct (Qlt_le_dec (exact_average s (fst x)) (exact_average s (fst y)))
      as [Hlt|Hle]; [now right|left].
    apply (binary64_eq _ _ _ _ Hx Hy). apply Qle_antisym; [exact Hord|].
    exact (binary64_mono _ _ _ _ Hy Hx Hle).
Qed.

(** C1, as amended: in a store where every activity's average is within the
    float range, sorting by score returns every activity, none left out,
    ordered by the average of its verified documents as Python's float
    division rounds it: an earlier activity never has the larger (for
    descending, the smaller) rounded average, so two activities stand
    against the order of their exact averages only when both averages round
    to the same float.  The key of an activity is the float nearest to the
    sum of the scores of its verified documents divided by their number,
    unverified documents playing no part, and it is exactly 0 when the
    activity has no verified document, in particular when it has no
    document list at all. *)
Theorem get_sorted_activities_by_score (s : Store) (descending : bool) :
  averages_in_range s ->
  (exists items,
     get_sorted_activities "score" descending s
     = (Returned (map activity_view items), s)
     /\ Permutation items (activities s)
     /\ StronglySorted (average_in_order descending s) items)
  /\ (forall item, In item (activities s) ->
      exists f,
        avg_score (activity_documents s) (fst item) = Returned f
        /\ binary64 (exact_average s (fst item)) = Some f
        /\ (Qabs (f - exact_average s (fst item))
            <= Qabs (exact_average s (fst item)) * pow2 (-53) + pow2 (-1075))%Q)
  /\ (forall activity_name,
      List.filter doc_verified (default [] (activity_documents s !! activity_name)) = [] ->
      exact_average s activity_name = 0%Q
      /\ avg_score (activity_documents s) activity_name = Returned 0%Q)
  /\ (forall activity_name,
      activity_documents s !! activity_name = None ->
      avg_score (activity_documents s) activity_name = Returned 0%Q)
  /\ (forall (other : Store) activity_name,
      List.filter doc_verified (default [] (activity_documents other !! activity_name))
      = List.filter doc_verified (default [] (activity_documents s !! activity_name)) ->
      avg_score (activity_documents other) activity_name
      = avg_score (activity_documents s) activity_name).
Proof.
  intros Hrange. pose proof (averages_in_range_float s Hrange) as Hall.
  split; [|split; [|split; [|split]]].
  - exists (list_sort (fun x => default 0%Q (float_average s (fst x)))
              descending (activities s)).
    rewrite get_sorted_activities_run,
      (items_after_sort_score_returned s descending Hall).
    split; [reflexivity|]. split; [apply list_sort_perm|].
    eapply StronglySorted_weaken_in; [|apply list_sort_in_order].
    intros a b Ha Hb Hord.
    apply (Permutation_in _ (list_sort_perm _ _ _)) in Ha, Hb.
    destruct (Hall a Ha) as [fa Hfa]. destruct (Hall b Hb) as [fb Hfb].
    exact (average_in_order_of_keys _ _ _ _ _ _ Hfa Hfb Hord).
  - intros item Hin. destruct (Hall item Hin) as [f Hf]. exists f.
    rewrite avg_score_float, Hf. split; [reflexivity|]. split; [exact Hf|].
    now apply binary64_near.
  - intros n Hnone. split; [|now apply avg_score_no_verified].
    unfold exact_average, verified_documents. now rewrite Hnone.
  - intros n Hnone. now apply avg_score_no_verified, verified_documents_None.
  - intros other n Hsame. rewrite !avg_score_float.
    now rewrite (float_average_verified s other n Hsame).
Qed.

Lemma chess_store_in_range : averages_in_range chess_store.
Proof.
  intros item Hin. cbn in Hin.
  repeat (destruct Hin as [<-|Hin]; [vm_compute; reflexivity|]).
  destruct Hin.
Qed.

Lemma get_sorted_activities_by_score_witness :
  exists items,
    get_sorted_activities "score" true chess_store
    = (Returned (map activity_view items), chess_store)
    /\ Permutation items (activities chess_store)
    /\ StronglySorted (average_in_order true chess_store) items.
Proof.
  exact (proj1 (get_sorted_activities_by_score chess_store true
                  chess_store_in_range)).
Defined.

(** C1, as stated, fails in two ways.  The order is not that of the exact
    averages: in [rounding_store], which the requests reach from the seed
    data, the first seed activity has the average [2^53 + 1] and the second
    [2^53]; both are the float [2^53], so the ascending view returns the
    first before the second, with the larger average in front.  And in
    [overflow_store] the view sorted by score returns no list at all. *)
Lemma get_sorted_activities_by_score_not_exact :
  reachable rounding_store
  /\ (exists before x y after,
        get_sorted_activities "score" false rounding_store
        = (Returned (map activity_view (before ++ x :: y :: after)),
           rounding_store)
        /\ (exact_average rounding_store (fst y)
            < exact_average rounding_store (fst x))%Q)
  /\ ~ (exists items,
          get_sorted_activities "score" false rounding_store
          = (Returned (map activity_view items), rounding_store)
          /\ StronglySorted (exact_average_in_order false rounding_store) items)
  /\ ~ (exists items,
          get_sorted_activities "score" false overflow_store
          = (Returned items, overflow_store)).
Proof.
  split; [apply reachable_step, reachable_step, reachable_step, reachable_step,
            reachable_seed|].
  assert (Hrun : exists l,
            items_after_sort "score" false rounding_store = Returned l
            /\ exists before x y after,
                 l = before ++ x :: y :: after
                 /\ (exact_average rounding_store (fst y)
                     < exact_average rounding_store (fst x))%Q).
  { eexists. split; [vm_compute; reflexivity|].
    eexists [_; _; _; _; _; _; _], _, _, []. split; [reflexivity|].
    vm_compute. reflexivity. }
  destruct Hrun as (l & Hl & before & x & y & after & -> & Hxy).
  split; [|split].
  - exists before, x, y, after.
    rewrite get_sorted_activities_run, Hl. now split.
  - intros (items & Hrun & Hsorted).
    rewrite get_sorted_activities_run, Hl in Hrun.
    injection Hrun as Hmap. apply map_activity_view_inj in Hmap. subst items.
    assert (Hle : exact_average_in_order false rounding_store x y).
    { clear - Hsorted. induction before as [|b before IH]; cbn [app] in Hsorted.
      - apply StronglySorted_inv in Hsorted as [_ Hx].
        now apply Forall_inv in Hx.
      - apply StronglySorted_inv in Hsorted as [Hrest _]. now apply IH. }
    cbn [exact_average_in_order] in Hle. exact (Qlt_not_le _ _ Hxy Hle).
  - intros (items & Hrun).
    assert (Hover : exists item, In item (activities overflow_store)
                      /\ float_average overflow_store (fst item) = None).
    { eexists. split; [left; reflexivity|]. vm_compute. reflexivity. }
    rewrite get_sorted_activities_run,
      (items_after_sort_score_raised _ _ Hover) in Hrun.
    discriminate.
Qed.

(** *** Sorting the participants of one activity *)

Lemma verified_for_eqb email doc :
  String.eqb (doc_email doc) email && doc_verified doc = true
  <-> verified_for email doc.
Proof. unfold verified_for. now rewrite andb_true_iff, String.eqb_eq. Qed.

Lemma first_verified_score_Some email docs sc :
  first_verified_score email docs = Some sc <->
  exists l1 d l2,
    docs = l1 ++ d :: l2 /\ verified_for email d /\ doc_score d = sc
    /\ (forall d', In d' l1 -> ~ verified_for email d').
Proof.
  induction docs as [|doc docs IH]; cbn [first_verified_score].
  - split; [discriminate|]. intros (l1 & d & l2 & Hd & _). now destruct l1.
  - destruct (String.eqb (doc_email doc) email && doc_verified doc) eqn:Hm.
    + apply verified_for_eqb in Hm. split.
      * intros [= <-]. exists [], doc, docs. repeat split; try apply Hm.
        intros d' [].
      * intros (l1 & d & l2 & Hd & Hv & <- & Hl1). destruct l1 as [|d1 l1].
        -- now injection Hd as <- _.
        -- injection Hd as <- _. exfalso. apply (Hl1 doc); [now left|exact Hm].
    + apply not_true_iff_false in Hm. rewrite verified_for_eqb in Hm.
      rewrite IH. split.
      * intros (l1 & d & l2 & -> & Hv & Hsc & Hl1).
        exists (doc :: l1), d, l2. repeat split; try assumption; try apply Hv.
        intros d' [<-|Hd']; [exact Hm|now apply Hl1].
      * intros (l1 & d & l2 & Hd & Hv & Hsc & Hl1). destruct l1 as [|d1 l1].
        -- injection Hd as <- _. contradiction.
        -- injection Hd as <- ->. exists l1, d, l2.
           repeat split; try assumption; try apply Hv.
           intros d' Hd'. apply Hl1. now right.
Qed.

Lemma first_verified_score_None email docs :
  first_verified_score email docs = None <->
  (forall d, In d docs -> ~ verified_for email d).
Proof.
  induction docs as [|doc docs IH]; cbn [first_verified_score In]; [tauto|].
  destruct (String.eqb (doc_email doc) email && doc_verified doc) eqn:Hm.
  - apply verified_for_eqb in Hm. split; [discriminate|].
    intros Hall. exfalso. apply (Hall doc); auto.
  - apply not_true_iff_false in Hm. rewrite verified_for_eqb in Hm.
    rewrite IH. split.
    + intros Hall d [<-|Hd]; [exact Hm|now apply Hall].
    + intros Hall d Hd. apply Hall. now right.
Qed.

Lemma get_sorted_participants_run s activity_name sort_by descending a :
  dict_get (activities s) activity_name = Some a ->
  get_sorted_participants activity_name sort_by descending s
  = (Returned (info_after_sort s activity_name sort_by descending a), s).
Proof.
  intros Hget. unfold get_sorted_participants, info_after_sort, info_before_sort.
  run_handler. rewrite Hget. run_handler.
  destruct (String.eqb sort_by "name"); [reflexivity|].
  destruct (String.eqb sort_by "score"); reflexivity.
Qed.

Lemma info_after_sort_perm s activity_name sort_by descending a :
  Permutation (info_after_sort s activity_name sort_by descending a)
    (info_before_sort s activity_name a).
Proof.
  unfold info_after_sort.
  destruct (String.eqb sort_by "name"); [apply list_sort_perm|].
  destruct (String.eqb sort_by "score"); [apply list_sort_perm|reflexivity].
Qed.

(** C5: for an activity that exists, the sorted participant view has one
    entry per participant; an entry's score is that of the first verified
    document of the activity carrying the participant's email, and None
    when there is none.  With sort_by=score the entries are ordered by
    score with None counted as 0, and the entries of one score keep their
    original order: those with None stay among those with 0, neither left
    out nor moved to an end, while the entry itself still holds None.  For
    an absent activity the handler raises NotFound. *)
Theorem get_sorted_participants_spec (s : Store) (activity_name sort_by : string)
  (descending : bool) :
  (dict_get (activities s) activity_name = None ->
   get_sorted_participants activity_name sort_by descending s
   = (Raised (NotFound "Activity not found"), s))
  /\ (forall a, dict_get (activities s) activity_name = Some a ->
      exists info,
        get_sorted_participants activity_name sort_by descending s
        = (Returned info, s)
        /\ Permutation info (info_before_sort s activity_name a)
        /\ length info = length (participants a)
        /\ (sort_by = "score" ->
            StronglySorted
              (fun x y =>
                 if descending
                 then default 0 (info_score y) <= default 0 (info_score x)
                 else default 0 (info_score x) <= default 0 (info_score y))
              info
            /\ forall k : Z,
                 List.filter (fun x => Z.eqb (default 0 (info_score x)) k) info
                 = List.filter (fun x => Z.eqb (default 0 (info_score x)) k)
                     (info_before_sort s activity_name a))
        /\ (sort_by = "name" ->
            StronglySorted (in_order info_email descending) info))
  /\ (forall email docs sc,
      first_verified_score email docs = Some sc <->
      exists l1 d l2,
        docs = l1 ++ d :: l2 /\ verified_for email d /\ doc_score d = sc
        /\ (forall d', In d' l1 -> ~ verified_for email d'))
  /\ (forall email docs,
      first_verified_score email docs = None <->
      (forall d, In d docs -> ~ verified_for email d))
  /\ (forall email,
      mkParticipantInfo email None <> mkParticipantInfo email (Some 0)).
Proof.
  split; [|split; [|split; [|split]]].
  - intros Hget. unfold get_sorted_participants. run_handler. now rewrite Hget.
  - intros a Hget. exists (info_after_sort s activity_name sort_by descending a).
    split; [now apply get_sorted_participants_run|].
    pose proof (info_after_sort_perm s activity_name sort_by descending a) as Hperm.
    split; [exact Hperm|]. split; [|split].
    + rewrite (Permutation_length Hperm). unfold info_before_sort.
      apply length_map.
    + intros ->. unfold info_after_sort. cbn [String.eqb Ascii.eqb Bool.eqb].
      split.
      * eapply StronglySorted_weaken; [|apply list_sort_in_order].
        intros x y. rewrite <- !score_key_default.
        destruct descending; cbn [in_order]; unfold nonincreasing, nondecreasing;
          cbn [py_lt Z_PyOrd]; rewrite Z.ltb_ge; auto.
      * intros k.
        pose proof (list_sort_keeps_ties score_key descending
                      (info_before_sort s activity_name a) k) as Hk.
        unfold tie_class in Hk.
        assert (Hext : forall x : ParticipantInfo,
                  Z.eqb (default 0 (info_score x)) k = py_tie (score_key x) k).
        { intros x. now rewrite <- score_key_default, Z_tie_eqb. }
        rewrite !(List.filter_ext _ _ Hext). exact Hk.
    + intros ->. unfold info_after_sort. cbn [String.eqb Ascii.eqb Bool.eqb].
      apply list_sort_in_order.
  - apply first_verified_score_Some.
  - apply first_verified_score_None.
  - intros email. discriminate.
Qed.

(** None and 0 fall together in the order and apart in the result: three
    participants whose scores are None, 0 and None come back as they
    were, in both directions. *)
Example sorted_participants_none_and_zero :
  get_sorted_participants "Tiny Club" "score" false none_and_zero_store
  = (Returned [mkParticipantInfo "a@mergington.edu" None;
               mkParticipantInfo "b@mergington.edu" (Some 0);
               mkParticipantInfo "c@mergington.edu" None;
               mkParticipantInfo "d@mergington.edu" (Some 5)],
     none_and_zero_store)
  /\ get_sorted_participants "Tiny Club" "score" true none_and_zero_store
     = (Returned [mkParticipantInfo "d@mergington.edu" (Some 5);
                  mkParticipantInfo "a@mergington.edu" None;
                  mkParticipantInfo "b@mergington.edu" (Some 0);
                  mkParticipantInfo "c@mergington.edu" None],
        none_and_zero_store).
Proof. split; vm_compute; reflexivity. Qed.

(** *** Stability in both directions *)

(** Both readings of stability for one call of [list.sort]. *)
Lemma list_sort_stable {A K} `{PyOrd K} (key : A -> K) reverse (l : list A) :
  (forall x, List.filter (fun y => py_tie (key y) (key x)) (list_sort key reverse l)
             = List.filter (fun y => py_tie (key y) (key x)) l)
  /\ (forall x y, py_tie (key x) (key y) = true ->
      occurs_before x y l -> occurs_before x y (list_sort key reverse l)).
Proof.
  split.
  - intros x. apply (list_sort_keeps_ties key reverse l (key x)).
  - intros x y. apply keeps_ties_occurs_before, list_sort_keeps_ties.
Qed.

(** The same when the ties are told by another test [same]. *)
Lemma list_sort_stable_as {A K} `{PyOrd K} (key : A -> K) (same : A -> A -> bool)
  reverse (l : list A) :
  (forall x y, same x y = py_tie (key x) (key y)) ->
  (forall x, List.filter (fun y => same y x) (list_sort key reverse l)
             = List.filter (fun y => same y x) l)
  /\ (forall x y, same x y = true ->
      occurs_before x y l -> occurs_before x y (list_sort key reverse l)).
Proof.
  intros Hsame. destruct (list_sort_stable key reverse l) as [Hf Hb]. split.
  - intros x.
    rewrite (List.filter_ext _ (fun y => py_tie (key y) (key x)))
      by (intros y; apply Hsame).
    rewrite (List.filter_ext (fun y => same y x) (fun y => py_tie (key y) (key x)))
      by (intros y; apply Hsame).
    apply Hf.
  - intros x y Hxy. apply Hb. now rewrite <- Hsame.
Qed.

Lemma filter_never {A} (p : A -> bool) (l : list A) :
  (forall x, In x l -> p x = false) -> List.filter p l = [].
Proof.
  induction l as [|x l IH]; intros Hp; [reflexivity|].
  cbn [List.filter]. rewrite (Hp x) by now left.
  apply IH. intros y Hy. apply Hp. now right.
Qed.

(** Stability of the sort by score, in a store where it returns. *)
Lemma score_sort_stable s descending :
  (forall item, In item (activities s) ->
     exists f, float_average s (fst item) = Some f) ->
  (forall x,
     List.filter (fun y => activities_same_key s "score" y x)
       (list_sort (fun z => default 0%Q (float_average s (fst z)))
          descending (activities s))
     = List.filter (fun y => activities_same_key s "score" y x) (activities s))
  /\ (forall x y, activities_same_key s "score" x y = true ->
      occurs_before x y (activities s) ->
      occurs_before x y
        (list_sort (fun z => default 0%Q (float_average s (fst z)))
           descending (activities s))).
Proof.
  intros Hall.
  set (key := fun z : string * Activity => default 0%Q (float_average s (fst z))).
  assert (Hsame : forall x y fx,
            float_average s (fst x) = Some fx -> In y (activities s) ->
            activities_same_key s "score" y x = py_tie (key y) fx).
  { intros x y fx Hx Hy. unfold activities_same_key, key.
    cbn [String.eqb Ascii.eqb Bool.eqb]. rewrite Hx.
    destruct (Hall y Hy) as [fy ->]. cbn [default from_option id].
    now rewrite Q_tie_eqb. }
  split.
  - intros x. destruct (float_average s (fst x)) as [fx|] eqn:Hx.
    + pose proof (list_sort_keeps_ties key descending (activities s) fx) as Hk.
      unfold tie_class in Hk.
      rewrite (List.filter_ext_in _ (fun y => py_tie (key y) fx)).
      * rewrite Hk. symmetry. apply List.filter_ext_in.
        intros y Hy. now apply Hsame.
      * intros y Hy. apply Hsame; [exact Hx|].
        exact (Permutation_in _ (list_sort_perm key descending _) Hy).
    + assert (Hnever : forall y, activities_same_key s "score" y x = false).
      { intros y. unfold activities_same_key.
        cbn [String.eqb Ascii.eqb Bool.eqb]. rewrite Hx.
        now destruct (float_average s (fst y)). }
      rewrite !filter_never; auto.
  - intros x y Hxy.
    apply (keeps_ties_occurs_before key); [apply list_sort_keeps_ties|].
    unfold activities_same_key in Hxy. cbn [String.eqb Ascii.eqb Bool.eqb] in Hxy.
    unfold key.
    destruct (float_average s (fst x)) as [fx|]; [|discriminate].
    destruct (float_average s (fst y)) as [fy|]; [|discriminate].
    cbn [default from_option id]. now rewrite Q_tie_eqb.
Qed.

Lemma info_after_sort_stable s activity_name sort_by descending a :
  (forall x,
     List.filter (fun y => participants_same_key sort_by y x)
       (info_after_sort s activity_name sort_by descending a)
     = List.filter (fun y => participants_same_key sort_by y x)
         (info_before_sort s activity_name a))
  /\ (forall x y, participants_same_key sort_by x y = true ->
      occurs_before x y (info_before_sort s activity_name a) ->
      occurs_before x y (info_after_sort s activity_name sort_by descending a)).
Proof.
  unfold participants_same_key, info_after_sort.
  destruct (String.eqb sort_by "name").
  { apply list_sort_stable_as. intros x y. now rewrite string_tie_eqb. }
  destruct (String.eqb sort_by "score").
  { apply list_sort_stable_as. intros x y.
    now rewrite <- !score_key_default, Z_tie_eqb. }
  split; auto.
Qed.

(** C6: both sorted views are stable for every sort key and both
    directions.  Whenever a view returns (the participant view of an
    existing activity always does; the activity view does unless it is
    sorted by score and an average is beyond the float range, where it
    raises OverflowError), the entries whose keys compare equal come out in
    the order they had in the input (for activities the dict order, for
    participants the sign-up order): two such entries are never swapped.
    With descending=true the result is the stable sort under the flipped
    comparison, not the reversed ascending result. *)
Theorem sorted_views_stable (s : Store) (sort_by : string) (descending : bool) :
  ((sort_by = "score"
    /\ (exists item, In item (activities s)
          /\ (overflow_threshold <= Qabs (exact_average s (fst item)))%Q)
    /\ get_sorted_activities sort_by descending s = (Raised OverflowError, s))
   \/ ((sort_by = "score" -> averages_in_range s)
       /\ exists items,
           get_sorted_activities sort_by descending s
           = (Returned (map activity_view items), s)
           /\ (forall x,
               List.filter (fun y => activities_same_key s sort_by y x) items
               = List.filter (fun y => activities_same_key s sort_by y x)
                   (activities s))
           /\ (forall x y, activities_same_key s sort_by x y = true ->
               occurs_before x y (activities s) -> occurs_before x y items)
           /\ (descending = true ->
               items = items_by_flipped_comparison sort_by s)))
  /\ (forall activity_name a,
      dict_get (activities s) activity_name = Some a ->
      exists info,
        get_sorted_participants activity_name sort_by descending s
        = (Returned info, s)
        /\ (forall x,
            List.filter (fun y => participants_same_key sort_by y x) info
            = List.filter (fun y => participants_same_key sort_by y x)
                (info_before_sort s activity_name a))
        /\ (forall x y, participants_same_key sort_by x y = true ->
            occurs_before x y (info_before_sort s activity_name a) ->
            occurs_before x y info)
        /\ (descending = true ->
            info = info_by_flipped_comparison s activity_name sort_by a)).
Proof.
  split.
  - rewrite get_sorted_activities_run.
    unfold items_after_sort, activities_same_key, items_by_flipped_comparison.
    destruct (String.eqb sort_by "name") eqn:Hname.
    { right. split; [intros ->; discriminate|]. eexists. split; [reflexivity|].
      destruct (list_sort_stable_as fst (fun x y => String.eqb (fst x) (fst y))
                  descending (activities s)) as [Hf Hb].
      { intros x y. now rewrite string_tie_eqb. }
      split; [exact Hf|]. split; [exact Hb|].
      intros ->. apply list_sort_reverse_flip. }
    destruct (String.eqb sort_by "participants") eqn:Hcount.
    { right. split; [intros ->; discriminate|]. eexists. split; [reflexivity|].
      destruct (list_sort_stable_as
                  (fun x : string * Activity =>
                     Z.of_nat (length (participants (snd x))))
                  (fun x y => Nat.eqb (length (participants (snd x)))
                                (length (participants (snd y))))
                  descending (activities s)) as [Hf Hb].
      { intros x y. now rewrite count_tie_eqb. }
      split; [exact Hf|]. split; [exact Hb|].
      intros ->. apply list_sort_reverse_flip. }
    destruct (String.eqb sort_by "score") eqn:Hscore.
    + apply String.eqb_eq in Hscore. subst sort_by.
      change (list_sort_by (fun x => avg_score (activity_documents s) (fst x))
                descending (activities s))
        with (items_after_sort "score" descending s).
      destruct (float_averages_dec s (activities s)) as [Hall|Hex].
      * right. split.
        { intros _ item Hin. destruct (Hall item Hin) as [f Hf].
          apply Qnot_le_lt. intros Hbig.
          apply float_average_None in Hbig. congruence. }
        rewrite (items_after_sort_score_returned s descending Hall).
        eexists. split; [reflexivity|].
        destruct (score_sort_stable s descending Hall) as [Hf Hb].
        split; [exact Hf|]. split; [exact Hb|].
        intros ->. apply list_sort_reverse_flip.
      * left. split; [reflexivity|]. split.
        { destruct Hex as (item & Hin & Hnone). exists item.
          split; [exact Hin|]. now apply float_average_None. }
        now rewrite (items_after_sort_score_raised s descending Hex).
    + right. split; [intros ->; discriminate|]. eexists. split; [reflexivity|].
      repeat split; auto.
  - intros activity_name a Hget.
    exists (info_after_sort s activity_name sort_by descending a).
    split; [now apply get_sorted_participants_run|].
    destruct (info_after_sort_stable s activity_name sort_by descending a) as [Hf Hb].
    split; [exact Hf|]. split; [exact Hb|].
    intros ->. unfold info_after_sort, info_by_flipped_comparison.
    destruct (String.eqb sort_by "name"); [apply list_sort_reverse_flip|].
    destruct (String.eqb sort_by "score"); [|reflexivity].
    rewrite list_sort_reverse_flip.
    apply (@list_sort_ext _ _ (PyOrd_flip Z_PyOrd) score_key
             (fun x => default 0 (info_score x)) false).
    apply score_key_default.
Qed.

(** On the seed data every activity has two participants, so sorting by
    participant count in descending order returns the dict order; reversing
    the ascending result would return the opposite order. *)
Example descending_ties_keep_dict_order :
  items_after_sort "participants" true seed = Returned seed_activities
  /\ option_map (@rev _)
       (match items_after_sort "participants" false seed with
        | Returned l => Some l
        | Raised _ => None
        end)
     <> Some seed_activities.
Proof. split; [vm_compute; reflexivity|vm_compute; discriminate]. Qed.

(** *** When the activity view returns *)

(** X16: the sorted activity view either raises OverflowError, which
    happens exactly when it is sorted by score and the average of some
    activity is beyond the float range, or returns a permutation of the
    activities dict: each activity once (names being unique), with its
    name, description, schedule, max_participants and participants as
    stored.  The store is left as it was either way. *)
Theorem get_sorted_activities_outcome (s : Store) (sort_by : string)
  (descending : bool) :
  ((sort_by = "score"
    /\ (exists item, In item (activities s)
          /\ (overflow_threshold <= Qabs (exact_average s (fst item)))%Q)
    /\ get_sorted_activities sort_by descending s = (Raised OverflowError, s))
   \/ ((sort_by = "score" -> averages_in_range s)
       /\ exists items,
           get_sorted_activities sort_by descending s
           = (Returned (map activity_view items), s)
           /\ Permutation items (activities s)
           /\ length (map activity_view items) = length (activities s)
           /\ (List.NoDup (map fst (activities s)) ->
               List.NoDup (map view_name (map activity_view items)))))
  /\ (forall k v,
      view_name (activity_view (k, v)) = k
      /\ view_description (activity_view (k, v)) = description v
      /\ view_schedule (activity_view (k, v)) = schedule v
      /\ view_max_participants (activity_view (k, v)) = max_participants v
      /\ view_participants (activity_view (k, v)) = participants v).
Proof.
  split; [|intros k v; cbn; auto].
  assert (Hreturned : forall items,
            items_after_sort sort_by descending s = Returned items ->
            exists items',
              (match items_after_sort sort_by descending s with
               | Returned l => Returned (map activity_view l)
               | Raised e => Raised e
               end, s) = (Returned (map activity_view items'), s)
              /\ Permutation items' (activities s)
              /\ length (map activity_view items') = length (activities s)
              /\ (List.NoDup (map fst (activities s)) ->
                  List.NoDup (map view_name (map activity_view items')))).
  { intros items Hrun. exists items. rewrite Hrun.
    pose proof (items_after_sort_perm _ _ _ _ Hrun) as Hperm.
    split; [reflexivity|]. split; [exact Hperm|]. split.
    - rewrite length_map. now apply Permutation_length.
    - intros Hnd. rewrite map_map.
      assert (Hext : map (fun x => view_name (activity_view x)) items
                     = map fst items).
      { apply map_ext. now intros [k v]. }
      rewrite Hext. eapply Permutation_NoDup; [|exact Hnd].
      symmetry. now apply Permutation_map. }
  rewrite get_sorted_activities_run.
  destruct (String.eqb sort_by "score") eqn:Hscore.
  - apply String.eqb_eq in Hscore. subst sort_by.
    destruct (float_averages_dec s (activities s)) as [Hall|Hex].
    + right. split.
      { intros _ item Hin. destruct (Hall item Hin) as [f Hf].
        apply Qnot_le_lt. intros Hbig.
        apply float_average_None in Hbig. congruence. }
      eapply Hreturned. now apply items_after_sort_score_returned.
    + left. split; [reflexivity|]. split.
      { destruct Hex as (item & Hin & Hnone). exists item.
        split; [exact Hin|]. now apply float_average_None. }
      now rewrite (items_after_sort_score_raised s descending Hex).
  - right. split; [intros ->; discriminate|].
    assert (Hrun : exists items,
              items_after_sort sort_by descending s = Returned items).
    { unfold items_after_sort. rewrite Hscore.
      destruct (String.eqb sort_by "name"); [eauto|].
      destruct (String.eqb sort_by "participants"); eauto. }
    destruct Hrun as [items Hrun]. exact (Hreturned items Hrun).
Qed.

(** ** Worked examples *)

Example sorted_by_name_seed :
  map view_name (match fst (get_sorted_activities "name" false seed) with
                 | Returned l => l | Raised _ => [] end)
  = ["Art Club"; "Basketball Team"; "Chess Club"; "Debate Team"; "Drama Club";
     "Gym Class"; "Math Club"; "Programming Class"; "Soccer Team"].
Proof. vm_compute. reflexivity. Qed.

Example signup_chess_ada :
  option_map participants
    (dict_get (activities (snd (signup_for_activity "Chess Club" "ada@mergington.edu" seed)))
       "Chess Club")
  = Some ["michael@mergington.edu"; "daniel@mergington.edu"; "ada@mergington.edu"].
Proof. vm_compute. reflexivity. Qed.

Example signup_chess_michael :
  signup_for_activity "Chess Club" "michael@mergington.edu" seed
  = (Raised (Conflict "Student is already signed up"), seed).
Proof. vm_compute. reflexivity. Qed.

(** The average is Python's float: 18 / 3 is 6.0, and an average that is no
    float is rounded to the nearest one. *)
Example avg_score_chess :
  avg_score (activity_documents chess_store) "Chess Club" = Returned 6%Q
  /\ avg_score (activity_documents chess_store) "Art Club" = Returned 0%Q
  /\ true_div 1 3 = Returned (6004799503160661 # 18014398509481984)%Q
  /\ true_div (2 ^ 53 + 1) 1 = Returned (inject_Z (2 ^ 53))
  /\ true_div (10 ^ 400) 1 = Raised OverflowError.
Proof. repeat split; vm_compute; reflexivity. Qed.

Example sorted_by_score_descending_chess :
  match items_after_sort "score" true chess_store with
  | Returned items => map view_name (map activity_view items)
  | Raised _ => []
  end
  = ["Chess Club"; "Programming Class"; "Gym Class"; "Soccer Team";
     "Basketball Team"; "Art Club"; "Drama Club"; "Math Club"; "Debate Team"].
Proof. vm_compute. reflexivity. Qed.

Example sorted_participants_chess :
  get_sorted_participants "Chess Club" "score" false chess_store
  = (Returned [mkParticipantInfo "daniel@mergington.edu" (Some 4);
               mkParticipantInfo "michael@mergington.edu" (Some 9)], chess_store).
Proof. vm_compute. reflexivity. Qed.

(** Without verified documents every score is [None], and the entries tie. *)
Example sorted_participants_seed :
  get_sorted_participants "Chess Club" "score" true seed
  = (Returned [mkParticipantInfo "michael@mergington.edu" None;
               mkParticipantInfo "daniel@mergington.edu" None], seed).
Proof. vm_compute. reflexivity. Qed.

Example unregister_chess_michael :
  option_map participants
    (dict_get (activities (snd (unregister_from_activity "Chess Club"
                                  "michael@mergington.edu" seed))) "Chess Club")
  = Some ["daniel@mergington.edu"].
Proof. vm_compute. reflexivity. Qed.

Example unregister_chess_stranger :
  unregister_from_activity "Chess Club" "ada@mergington.edu" seed
  = (Raised (Conflict "Student is not signed up for this activity"), seed).
Proof. vm_compute. reflexivity. Qed.

(** Verifying the pair (michael, medal.pdf) marks the first document only. *)
Example verify_chess_medal :
  option_map (map doc_verified)
    (activity_documents
       (snd (verify_document "Chess Club" "michael@mergington.edu" "medal.pdf"
               chess_store)) !! "Chess Club")
  = Some [true; true; true; true]
  /\ fst (verify_document "Chess Club" "michael@mergington.edu" "nothing.pdf"
            chess_store)
     = Raised (NotFound "Document not found").
Proof. split; vm_compute; reflexivity. Qed.

(** [verify_document] never looks at [activities]: documents filed under a
    name that is not an activity are verified all the same. *)
Example verify_without_activity :
  fst (verify_document "Ghost Club" "michael@mergington.edu" "medal.pdf"
         (mkStore [] {[ "Ghost Club" := chess_documents ]}))
  = Returned (mkMessage
      "Verified medal.pdf for michael@mergington.edu in Ghost Club").
Proof. vm_compute. reflexivity. Qed.

(** Signing up beyond [max_participants] succeeds. *)
Example signup_over_capacity :
  fst (signup_for_activity "Tiny Club" "c@mergington.edu"
         (mkStore [("Tiny Club",
                    mkActivity "Two seats" "Never" 2
                      ["a@mergington.edu"; "b@mergington.edu"])] ∅))
  = Returned (mkMessage "Signed up c@mergington.edu for Tiny Club").
Proof. vm_compute. reflexivity. Qed.

(** * Further properties of the handlers *)

(** ** Uploading documents *)

Lemma upload_document_run s activity_name email file score a :
  dict_get (activities s) activity_name = Some a ->
  upload_document activity_name email file score s
  = (Returned (mkMessage ("Uploaded " +:+ file_filename file +:+ " for " +:+ email
                          +:+ " in " +:+ activity_name)),
     mkStore (activities s)
       (<[activity_name :=
            default [] (activity_documents s !! activity_name)
            ++ [uploaded email file score]]> (activity_documents s))).
Proof.
  intros Hget. unfold upload_document. run_handler. now rewrite Hget.
Qed.

Lemma upload_document_absent s activity_name email file score :
  dict_get (activities s) activity_name = None ->
  upload_document activity_name email file score s
  = (Raised (NotFound "Activity not found"), s).
Proof.
  intros Hget. unfold upload_document. run_handler. now rewrite Hget.
Qed.

(** X1: an upload for an unknown activity raises 404 and leaves the store as
    it was.  For a known activity it returns, whoever the email belongs to
    (it need not be a participant): the new record, unverified, goes to the
    end of that activity's document list, which is created when there was
    none; the other lists and the activities stay as they were. *)
Theorem upload_document_spec (s : Store) (activity_name email : string)
  (file : UploadFile) (score : Z) :
  (dict_get (activities s) activity_name = None ->
   upload_document activity_name email file score s
   = (Raised (NotFound "Activity not found"), s))
  /\ (forall a, dict_get (activities s) activity_name = Some a ->
      exists s',
        upload_document activity_name email file score s
        = (Returned (mkMessage ("Uploaded " +:+ file_filename file +:+ " for "
                                +:+ email +:+ " in " +:+ activity_name)), s')
        /\ activities s' = activities s
        /\ activity_documents s' !! activity_name
           = Some (default [] (activity_documents s !! activity_name)
                   ++ [mkDocument email (file_filename file)
                         (file_content_type file) score false])
        /\ (forall n, n <> activity_name ->
            activity_documents s' !! n = activity_documents s !! n)).
Proof.
  split; [apply upload_document_absent|].
  intros a Hget. eexists. split; [now apply (upload_document_run _ _ _ _ _ a)|].
  cbn [activities activity_documents]. split; [reflexivity|].
  split; [apply lookup_insert_eq|].
  intros n Hn. now apply lookup_insert_ne.
Qed.

(** X2: after an upload that returned, listing the documents of the activity
    gives what the listing gave before, followed by the new unverified
    record. *)
Theorem upload_then_get_activity_documents (s : Store)
  (activity_name email : string) (file : UploadFile) (score : Z)
  (old : list Document) :
  get_activity_documents activity_name s = (Returned old, s) ->
  get_activity_documents activity_name
    (snd (upload_document activity_name email file score s))
  = (Returned (old ++ [mkDocument email (file_filename file)
                         (file_content_type file) score false]),
     snd (upload_document activity_name email file score s)).
Proof.
  unfold get_activity_documents at 1. run_handler.
  destruct (dict_get (activities s) activity_name) as [a|] eqn:Hget; [|discriminate].
  run_handler. intros [= <-].
  rewrite (upload_document_run _ _ _ _ _ a Hget).
  unfold get_activity_documents. run_handler. rewrite Hget. run_handler.
  now rewrite lookup_insert_eq.
Qed.

Lemma upload_then_get_activity_documents_witness :
  get_activity_documents "Chess Club"
    (snd (upload_document "Chess Club" "ada@mergington.edu"
            (mkUploadFile "rook.pdf" None) 3 chess_store))
  = (Returned (chess_documents
               ++ [mkDocument "ada@mergington.edu" "rook.pdf" None 3 false]),
     snd (upload_document "Chess Club" "ada@mergington.edu"
            (mkUploadFile "rook.pdf" None) 3 chess_store)).
Proof.
  apply (upload_then_get_activity_documents chess_store).
  vm_compute. reflexivity.
Defined.

Lemma mark_first_app_l email filename l l' extra :
  mark_first email filename l = Some l' ->
  mark_first email filename (l ++ extra) = Some (l' ++ extra).
Proof.
  revert l'. induction l as [|doc l IH]; intros l'; [discriminate|].
  cbn [mark_first app].
  destruct (String.eqb (doc_email doc) email && String.eqb (doc_filename doc) filename).
  - now intros [= <-].
  - destruct (mark_first email filename l) as [rest|]; [|discriminate].
    cbn [option_map]. intros [= <-]. now rewrite (IH rest eq_refl).
Qed.

Lemma mark_first_app_r email filename l d :
  mark_first email filename l = None ->
  doc_matches email filename d ->
  mark_first email filename (l ++ [d]) = Some (l ++ [mark_verified d]).
Proof.
  intros Hnone Hd. apply mark_first_Some; [exact Hd|].
  now apply mark_first_None.
Qed.

(** X3: a document that was just uploaded can be verified: the verify call
    for its email and filename returns.  It marks the uploaded record when
    no earlier record of the activity has the same email and filename, and
    the earliest such record otherwise, the uploaded one staying unverified. *)
Theorem upload_then_verify_document (s : Store) (activity_name email : string)
  (file : UploadFile) (score : Z) (a : Activity) :
  dict_get (activities s) activity_name = Some a ->
  exists s2,
    verify_document activity_name email (file_filename file)
      (snd (upload_document activity_name email file score s))
    = (Returned (mkMessage ("Verified " +:+ file_filename file +:+ " for "
                            +:+ email +:+ " in " +:+ activity_name)), s2)
    /\ activities s2 = activities s
    /\ (mark_first email (file_filename file)
          (default [] (activity_documents s !! activity_name)) = None ->
        activity_documents s2 !! activity_name
        = Some (default [] (activity_documents s !! activity_name)
                ++ [mkDocument email (file_filename file)
                      (file_content_type file) score true]))
    /\ (forall marked,
        mark_first email (file_filename file)
          (default [] (activity_documents s !! activity_name)) = Some marked ->
        activity_documents s2 !! activity_name
        = Some (marked ++ [mkDocument email (file_filename file)
                             (file_content_type file) score false])).
Proof.
  intros Hget. rewrite (upload_document_run _ _ _ _ _ a Hget). cbn [snd].
  unfold verify_document. run_handler. rewrite lookup_insert_eq.
  set (old := default [] (activity_documents s !! activity_name)).
  assert (Hnew : doc_matches email (file_filename file) (uploaded email file score))
    by (split; reflexivity).
  destruct (mark_first email (file_filename file) old) as [marked|] eqn:Hold.
  - rewrite (mark_first_app_l _ _ _ _ _ Hold). run_handler.
    eexists. split; [reflexivity|]. cbn [activities activity_documents].
    split; [reflexivity|]. split; [discriminate|].
    intros marked' [= <-]. apply lookup_insert_eq.
  - rewrite (mark_first_app_r _ _ _ _ Hold Hnew). run_handler.
    eexists. split; [reflexivity|]. cbn [activities activity_documents].
    split; [reflexivity|]. split; [|discriminate].
    intros _. apply lookup_insert_eq.
Qed.

Lemma upload_then_verify_document_witness :
  exists s2,
    verify_document "Chess Club" "ada@mergington.edu" "rook.pdf"
      (snd (upload_document "Chess Club" "ada@mergington.edu"
              (mkUploadFile "rook.pdf" None) 3 chess_store))
    = (Returned (mkMessage "Verified rook.pdf for ada@mergington.edu in Chess Club"), s2)
    /\ activities s2 = seed_activities.
Proof.
  destruct (upload_then_verify_document chess_store "Chess Club"
              "ada@mergington.edu" (mkUploadFile "rook.pdf" None) 3
              (mkActivity "Learn strategies and compete in chess tournaments"
                 "Fridays, 3:30 PM - 5:00 PM" 12
                 ["michael@mergington.edu"; "daniel@mergington.edu"])
              eq_refl) as (s2 & Hrun & Hacts & _).
  exists s2. split; [exact Hrun|exact Hacts].
Defined.

(** ** Enrolment round trips *)

Lemma signup_for_activity_split s activity_name email a d1 d2 :
  activities s = d1 ++ (activity_name, a) :: d2 ->
  ~ In activity_name (map fst d1) ->
  ~ In email (participants a) ->
  signup_for_activity activity_name email s
  = (Returned (mkMessage ("Signed up " +:+ email +:+ " for " +:+ activity_name)),
     mkStore (d1 ++ (activity_name,
                     with_participants a (participants a ++ [email])) :: d2)
       (activity_documents s)).
Proof.
  intros Hd Hd1 Hnin.
  assert (Hget : dict_get (activities s) activity_name = Some a).
  { apply dict_get_first. now exists d1, d2. }
  unfold signup_for_activity. run_handler. rewrite Hget.
  apply list_contains_not_In in Hnin. rewrite Hnin. run_handler.
  rewrite Hd, dict_alter_first by exact Hd1. reflexivity.
Qed.

Lemma list_remove_middle x p1 p2 :
  ~ In x p1 -> list_remove x (p1 ++ x :: p2) = Some (p1 ++ p2).
Proof.
  induction p1 as [|y p1 IH]; intros Hp1; cbn [list_remove app].
  - now rewrite String.eqb_refl.
  - destruct (String.eqb y x) eqn:Hy.
    + apply String.eqb_eq in Hy. subst. exfalso. apply Hp1. now left.
    + rewrite IH; [reflexivity|]. intros Hin. apply Hp1. now right.
Qed.

Lemma unregister_from_activity_split s activity_name email a d1 d2 p1 p2 :
  activities s = d1 ++ (activity_name, a) :: d2 ->
  ~ In activity_name (map fst d1) ->
  participants a = p1 ++ email :: p2 ->
  ~ In email p1 ->
  unregister_from_activity activity_name email s
  = (Returned (mkMessage ("Unregistered " +:+ email +:+ " from " +:+ activity_name)),
     mkStore (d1 ++ (activity_name, with_participants a (p1 ++ p2)) :: d2)
       (activity_documents s)).
Proof.
  intros Hd Hd1 Hp Hp1.
  assert (Hget : dict_get (activities s) activity_name = Some a).
  { apply dict_get_first. now exists d1, d2. }
  assert (Hin : In email (participants a)).
  { rewrite Hp. apply in_or_app. right. now left. }
  unfold unregister_from_activity. run_handler. rewrite Hget.
  apply list_contains_In in Hin. rewrite Hin. cbn [negb].
  rewrite Hp, (list_remove_middle _ _ _ Hp1).
  run_handler. rewrite Hd, dict_alter_first by exact Hd1. reflexivity.
Qed.

Lemma signup_for_activity_returned s s1 activity_name email r :
  signup_for_activity activity_name email s = (Returned r, s1) ->
  exists a d1 d2,
    activities s = d1 ++ (activity_name, a) :: d2
    /\ ~ In activity_name (map fst d1)
    /\ ~ In email (participants a)
    /\ s1 = mkStore (d1 ++ (activity_name,
                            with_participants a (participants a ++ [email])) :: d2)
              (activity_documents s).
Proof.
  intros Hrun.
  destruct (dict_get (activities s) activity_name) as [a|] eqn:Hget.
  - destruct (list_contains email (participants a)) eqn:Hin.
    + revert Hrun. unfold signup_for_activity. run_handler.
      rewrite Hget, Hin. discriminate.
    + apply list_contains_not_In in Hin.
      destruct (proj1 (dict_get_first _ _ _) Hget) as (d1 & d2 & Hd & Hd1).
      rewrite (signup_for_activity_split _ _ _ _ _ _ Hd Hd1 Hin) in Hrun.
      injection Hrun as _ <-. now exists a, d1, d2.
  - revert Hrun. unfold signup_for_activity. run_handler.
    rewrite Hget. discriminate.
Qed.

(** X4: unregistering right after a signup that returned undoes it: the
    call returns and the store is again exactly the one before the signup. *)
Theorem signup_then_unregister (s s1 : Store) (activity_name email : string)
  (r : MessageResponse) :
  signup_for_activity activity_name email s = (Returned r, s1) ->
  unregister_from_activity activity_name email s1
  = (Returned (mkMessage ("Unregistered " +:+ email +:+ " from " +:+ activity_name)),
     s).
Proof.
  intros Hrun.
  destruct (signup_for_activity_returned _ _ _ _ _ Hrun)
    as (a & d1 & d2 & Hd & Hd1 & Hnin & ->).
  rewrite (unregister_from_activity_split
             (mkStore (d1 ++ (activity_name,
                              with_participants a (participants a ++ [email])) :: d2)
                (activity_documents s))
             activity_name email
             (with_participants a (participants a ++ [email])) d1 d2
             (participants a) [] eq_refl Hd1 eq_refl Hnin).
  cbn [activity_documents]. f_equal.
  destruct s as [acts docs], a as [de sc mx ps]. cbn in *. subst acts.
  unfold with_participants. cbn. now rewrite app_nil_r.
Qed.

Lemma signup_then_unregister_witness :
  unregister_from_activity "Chess Club" "ada@mergington.edu"
    (snd (signup_for_activity "Chess Club" "ada@mergington.edu" seed))
  = (Returned (mkMessage "Unregistered ada@mergington.edu from Chess Club"), seed).
Proof.
  apply (signup_then_unregister seed _ "Chess Club" "ada@mergington.edu"
           (mkMessage "Signed up ada@mergington.edu for Chess Club")).
  vm_compute. reflexivity.
Defined.

(** X5: when a participant list holds no email twice, unregistering an
    enrolled email and signing it up again both return, and the email ends
    up last in the list, the other participants keeping their order;
    nothing else in the store changes. *)
Theorem unregister_then_signup (s : Store) (activity_name email : string)
  (a : Activity) :
  dict_get (activities s) activity_name = Some a ->
  List.NoDup (participants a) ->
  In email (participants a) ->
  exists d1 d2 p1 p2,
    activities s = d1 ++ (activity_name, a) :: d2
    /\ ~ In activity_name (map fst d1)
    /\ participants a = p1 ++ email :: p2
    /\ signup_for_activity activity_name email
         (snd (unregister_from_activity activity_name email s))
       = (Returned (mkMessage ("Signed up " +:+ email +:+ " for " +:+ activity_name)),
          mkStore (d1 ++ (activity_name,
                          with_participants a ((p1 ++ p2) ++ [email])) :: d2)
            (activity_documents s)).
Proof.
  intros Hget Hnd Hin.
  destruct (proj1 (dict_get_first _ _ _) Hget) as (d1 & d2 & Hd & Hd1).
  destruct (list_remove_first _ _ Hin) as (p1 & p2 & Hp & Hp1 & _).
  exists d1, d2, p1, p2. repeat (split; [assumption|]).
  rewrite (unregister_from_activity_split _ _ _ _ _ _ _ _ Hd Hd1 Hp Hp1).
  cbn [snd].
  rewrite (signup_for_activity_split
             (mkStore (d1 ++ (activity_name, with_participants a (p1 ++ p2)) :: d2)
                (activity_documents s))
             activity_name email
             (with_participants a (p1 ++ p2)) d1 d2 eq_refl Hd1).
  - reflexivity.
  - cbn [with_participants participants]. rewrite Hp in Hnd.
    now apply List.NoDup_remove_2 in Hnd.
Qed.

Lemma unregister_then_signup_witness :
  exists d1 d2 p1 p2,
    seed_activities
    = d1 ++ ("Chess Club",
             mkActivity "Learn strategies and compete in chess tournaments"
               "Fridays, 3:30 PM - 5:00 PM" 12
               ["michael@mergington.edu"; "daniel@mergington.edu"]) :: d2
    /\ ~ In "Chess Club" (map fst d1)
    /\ ["michael@mergington.edu"; "daniel@mergington.edu"]
       = p1 ++ "michael@mergington.edu" :: p2
    /\ signup_for_activity "Chess Club" "michael@mergington.edu"
         (snd (unregister_from_activity "Chess Club" "michael@mergington.edu" seed))
       = (Returned (mkMessage "Signed up michael@mergington.edu for Chess Club"),
          mkStore (d1 ++ ("Chess Club",
                          with_participants
                            (mkActivity "Learn strategies and compete in chess tournaments"
                               "Fridays, 3:30 PM - 5:00 PM" 12
                               ["michael@mergington.edu"; "daniel@mergington.edu"])
                            ((p1 ++ p2) ++ ["michael@mergington.edu"])) :: d2)
            ∅).
Proof.
  apply (unregister_then_signup seed "Chess Club" "michael@mergington.edu").
  - reflexivity.
  - apply NoDup_ListNoDup. apply (bool_decide_unpack _). vm_compute. exact I.
  - now left.
Defined.

(** Without that precondition the second call can fail: an email stored
    twice is still enrolled after one [remove]. *)
Example unregister_then_signup_duplicate :
  fst (signup_for_activity "Tiny Club" "a@mergington.edu"
         (snd (unregister_from_activity "Tiny Club" "a@mergington.edu"
                 (mkStore [("Tiny Club",
                            mkActivity "Two seats" "Never" 2
                              ["a@mergington.edu"; "a@mergington.edu"])] ∅))))
  = Raised (Conflict "Student is already signed up").
Proof. vm_compute. reflexivity. Qed.

(** ** What no request does *)

Lemma same_record_refl d : same_record d d.
Proof. unfold same_record. auto. Qed.

Lemma same_record_trans d1 d2 d3 :
  same_record d1 d2 -> same_record d2 d3 -> same_record d1 d3.
Proof.
  unfold same_record. intros (E1 & F1 & C1 & S1 & V1) (E2 & F2 & C2 & S2 & V2).
  repeat split; try congruence. auto.
Qed.

Lemma Forall2_same_record_refl l : Forall2 same_record l l.
Proof. induction l; constructor; auto using same_record_refl. Qed.

Lemma Forall2_same_record_trans l1 : forall l2 l3,
  Forall2 same_record l1 l2 -> Forall2 same_record l2 l3 ->
  Forall2 same_record l1 l3.
Proof.
  induction l1 as [|d l1 IH]; intros l2 l3 H12 H23;
    inversion H12; subst; inversion H23; subst; constructor.
  - eapply same_record_trans; eauto.
  - eapply IH; eauto.
Qed.

Lemma documents_grow_refl l : documents_grow l l.
Proof.
  exists l, []. split; [now rewrite app_nil_r|apply Forall2_same_record_refl].
Qed.

Lemma documents_grow_trans l1 l2 l3 :
  documents_grow l1 l2 -> documents_grow l2 l3 -> documents_grow l1 l3.
Proof.
  intros (k1 & a1 & -> & H1) (k2 & a2 & -> & H2).
  apply List.Forall2_app_inv_l in H2 as (k2a & k2b & Hk & Ha & ->).
  exists k2a, (k2b ++ a2). split; [now rewrite app_assoc|].
  eapply Forall2_same_record_trans; eauto.
Qed.

Lemma mark_first_same_record email filename docs : forall docs',
  mark_first email filename docs = Some docs' ->
  Forall2 same_record docs docs'.
Proof.
  induction docs as [|doc docs IH]; intros docs'; [discriminate|].
  cbn [mark_first].
  destruct (String.eqb (doc_email doc) email && String.eqb (doc_filename doc) filename).
  - intros [= <-]. constructor; [|apply Forall2_same_record_refl].
    unfold same_record. cbn. auto.
  - destruct (mark_first email filename docs) as [rest|]; [|discriminate].
    cbn [option_map]. intros [= <-].
    constructor; [apply same_record_refl|now apply IH].
Qed.

(** What one request can do to the document list filed under [n]. *)
Lemma serve_documents_cases r s n :
  activity_documents (serve r s) !! n = activity_documents s !! n
  \/ (exists e f sc,
        dict_get (activities s) n <> None
        /\ activity_documents (serve r s) !! n
           = Some (default [] (activity_documents s !! n) ++ [uploaded e f sc]))
  \/ (exists e f docs docs',
        activity_documents s !! n = Some docs
        /\ mark_first e f docs = Some docs'
        /\ activity_documents (serve r s) !! n = Some docs').
Proof.
  destruct r; cbn [serve]; rewrite ?get_sorted_activities_store;
    try (left; reflexivity).
  - left. unfold signup_for_activity. run_handler.
    destruct (dict_get (activities s) activity_name) as [a|]; [|reflexivity].
    destruct (list_contains email (participants a)); reflexivity.
  - left. unfold unregister_from_activity. run_handler.
    destruct (dict_get (activities s) activity_name) as [a|]; [|reflexivity].
    destruct (list_contains email (participants a)); [|reflexivity].
    cbn [negb]. destruct (list_remove email (participants a)); reflexivity.
  - destruct (dict_get (activities s) activity_name) as [a|] eqn:Hget.
    + rewrite (upload_document_run _ _ _ _ _ a Hget). cbn [snd activity_documents].
      destruct (decide (activity_name = n)) as [->|Hn].
      * right. left. exists email, file, score.
        split; [congruence|apply lookup_insert_eq].
      * left. now apply lookup_insert_ne.
    + left. now rewrite (upload_document_absent _ _ _ _ _ Hget).
  - left. unfold get_activity_documents. run_handler.
    destruct (dict_get (activities s) activity_name); reflexivity.
  - unfold verify_document. run_handler.
    destruct (activity_documents s !! activity_name) as [docs|] eqn:Hdocs;
      [|left; reflexivity].
    destruct (mark_first email filename docs) as [docs'|] eqn:Hmark;
      [|left; reflexivity].
    run_handler. cbn [activity_documents].
    destruct (decide (activity_name = n)) as [->|Hn].
    + right. right. exists email, filename, docs, docs'.
      repeat split; [exact Hdocs|exact Hmark|apply lookup_insert_eq].
    + left. now apply lookup_insert_ne.
  - left. unfold get_sorted_participants. run_handler.
    destruct (dict_get (activities s) activity_name); [|reflexivity].
    run_handler.
    destruct (String.eqb sort_by "name"); [reflexivity|].
    destruct (String.eqb sort_by "score"); reflexivity.
Qed.

Lemma serve_documents_grow r s n :
  documents_grow (default [] (activity_documents s !! n))
    (default [] (activity_documents (serve r s) !! n)).
Proof.
  destruct (serve_documents_cases r s n)
    as [->|[(e & f & sc & _ & ->)|(e & f & docs & docs' & Hd & Hm & ->)]].
  - apply documents_grow_refl.
  - cbn [default from_option id]. eexists _, _. split; [reflexivity|].
    apply Forall2_same_record_refl.
  - rewrite Hd. cbn. exists docs', []. split; [now rewrite app_nil_r|].
    eapply mark_first_same_record; eauto.
Qed.

(** X6: no sequence of requests loses, reorders or rewrites a document: the
    records filed under a name stay where they are with their email,
    filename, content type and score, a verified record stays verified, and
    new records only come after them. *)
Theorem documents_only_grow (s s' : Store)
  (activity_name : string) :
  serves s s' ->
  documents_grow (default [] (activity_documents s !! activity_name))
    (default [] (activity_documents s' !! activity_name)).
Proof.
  induction 1 as [|s' r Hs IH]; [apply documents_grow_refl|].
  eapply documents_grow_trans; [exact IH|apply serve_documents_grow].
Qed.

Lemma documents_only_grow_witness :
  documents_grow chess_documents
    (default []
       (activity_documents
          (serve (Upload "Chess Club" "ada@mergington.edu"
                              (mkUploadFile "rook.pdf" None) 3)
             (serve
                (Verify "Chess Club" "michael@mergington.edu" "medal.pdf")
                chess_store))
        !! "Chess Club")).
Proof.
  apply (documents_only_grow chess_store _ "Chess Club").
  apply serves_more, serves_more, serves_none.
Defined.

Lemma dict_alter_frame (f : Activity -> Activity) k d :
  (forall a, description (f a) = description a
             /\ schedule (f a) = schedule a
             /\ max_participants (f a) = max_participants a) ->
  map activity_frame (dict_alter f k d) = map activity_frame d.
Proof.
  intros Hf. induction d as [|[k' v] d IH]; [reflexivity|].
  cbn [dict_alter]. destruct (String.eqb k' k); cbn [map].
  - f_equal. unfold activity_frame. cbn [fst snd].
    destruct (Hf v) as (-> & -> & ->). reflexivity.
  - now rewrite IH.
Qed.

Lemma serve_activity_frame r s :
  map activity_frame (activities (serve r s))
  = map activity_frame (activities s).
Proof.
  destruct r; cbn [serve]; rewrite ?get_sorted_activities_store;
    try reflexivity.
  - unfold signup_for_activity. run_handler.
    destruct (dict_get (activities s) activity_name) as [a|]; [|reflexivity].
    destruct (list_contains email (participants a)); [reflexivity|].
    run_handler. cbn [activities]. apply dict_alter_frame. now intros a'.
  - unfold unregister_from_activity. run_handler.
    destruct (dict_get (activities s) activity_name) as [a|]; [|reflexivity].
    destruct (list_contains email (participants a)); [|reflexivity].
    cbn [negb]. destruct (list_remove email (participants a)); [|reflexivity].
    run_handler. cbn [activities]. apply dict_alter_frame. now intros a'.
  - unfold upload_document. run_handler.
    destruct (dict_get (activities s) activity_name); reflexivity.
  - unfold get_activity_documents. run_handler.
    destruct (dict_get (activities s) activity_name); reflexivity.
  - unfold verify_document. run_handler.
    destruct (activity_documents s !! activity_name) as [docs|]; [|reflexivity].
    destruct (mark_first email filename docs); reflexivity.
  - unfold get_sorted_participants. run_handler.
    destruct (dict_get (activities s) activity_name); [|reflexivity].
    run_handler.
    destruct (String.eqb sort_by "name"); [reflexivity|].
    destruct (String.eqb sort_by "score"); reflexivity.
Qed.

Lemma map_fst_of_frame (d : list (string * Activity)) :
  map fst d = map (fun fr => fst (fst (fst fr))) (map activity_frame d).
Proof. rewrite map_map. now apply map_ext. Qed.

(** X7: the set of activities is fixed.  No request adds, removes, renames
    or reorders an activity, or changes a description, a schedule or a
    max_participants: only participant lists change.  So every store
    reachable from the seed data has the nine seed activities, in the seed
    order and under pairwise different names. *)
Theorem activities_are_fixed :
  (forall r s,
     map activity_frame (activities (serve r s))
     = map activity_frame (activities s))
  /\ (forall s, reachable s ->
      map activity_frame (activities s) = map activity_frame seed_activities
      /\ map fst (activities s) = map fst seed_activities
      /\ List.NoDup (map fst (activities s))).
Proof.
  split; [intros r s; apply serve_activity_frame|].
  assert (Hframe : forall s, reachable s ->
            map activity_frame (activities s) = map activity_frame seed_activities).
  { induction 1 as [|s r Hs IH]; [reflexivity|].
    now rewrite serve_activity_frame. }
  intros s Hs. pose proof (Hframe s Hs) as Hf.
  assert (Hkeys : map fst (activities s) = map fst seed_activities).
  { now rewrite !map_fst_of_frame, Hf. }
  split; [exact Hf|]. split; [exact Hkeys|].
  rewrite Hkeys. apply NoDup_ListNoDup. apply (bool_decide_unpack _).
  vm_compute. exact I.
Qed.

(** ** Documents are filed under activities *)

Lemma serve_keys r s :
  map fst (activities (serve r s)) = map fst (activities s).
Proof. now rewrite !map_fst_of_frame, serve_activity_frame. Qed.

Lemma mark_first_not_nil email filename docs docs' :
  mark_first email filename docs = Some docs' -> docs' <> [].
Proof.
  destruct docs as [|doc docs]; [discriminate|]. cbn [mark_first].
  destruct (String.eqb (doc_email doc) email && String.eqb (doc_filename doc) filename).
  - now intros [= <-].
  - destruct (mark_first email filename docs); [|discriminate].
    cbn [option_map]. now intros [= <-].
Qed.

Lemma serve_documents_filed r s :
  documents_filed s -> documents_filed (serve r s).
Proof.
  intros Hinv n docs Hdocs.
  assert (Hkey : forall m, dict_get (activities s) m <> None ->
                           dict_get (activities (serve r s)) m <> None).
  { intros m. rewrite !dict_get_None, serve_keys. auto. }
  destruct (serve_documents_cases r s n)
    as [Hsame|[(e & f & sc & Hact & Hnew)|(e & f & old & docs' & Hold & Hm & Hnew)]].
  - rewrite Hsame in Hdocs. destruct (Hinv n docs Hdocs) as [Hne Hact].
    split; [exact Hne|now apply Hkey].
  - rewrite Hnew in Hdocs. injection Hdocs as <-. split; [|now apply Hkey].
    intros Hnil. apply app_eq_nil in Hnil as [_ Hnil]. discriminate.
  - rewrite Hnew in Hdocs. injection Hdocs as <-.
    destruct (Hinv n old Hold) as [_ Hact]. split; [|now apply Hkey].
    eapply mark_first_not_nil; eauto.
Qed.

(** X8: in every store reachable from the seed data, a document list exists
    only under the name of an activity and is never empty: records are only
    added through uploads, which check the activity first.  (So there, a
    verify that returns always concerns an existing activity.) *)
Theorem reachable_documents_filed (s : Store) :
  reachable s ->
  forall activity_name docs,
    activity_documents s !! activity_name = Some docs ->
    docs <> [] /\ dict_get (activities s) activity_name <> None.
Proof.
  induction 1 as [|s r Hs IH].
  - intros n docs Hdocs. cbn in Hdocs. now rewrite lookup_empty in Hdocs.
  - now apply serve_documents_filed.
Qed.

Lemma reachable_documents_filed_witness :
  [mkDocument "ada@mergington.edu" "rook.pdf" None 3 false] <> []
  /\ dict_get
       (activities (serve
                      (Upload "Chess Club" "ada@mergington.edu"
                         (mkUploadFile "rook.pdf" None) 3) seed))
       "Chess Club" <> None.
Proof.
  apply (reachable_documents_filed
           (serve
              (Upload "Chess Club" "ada@mergington.edu"
                 (mkUploadFile "rook.pdf" None) 3) seed)).
  - apply reachable_step, reachable_seed.
  - vm_compute. reflexivity.
Defined.

(** ** Requests that fail *)

Lemma list_contains_remove email l :
  list_contains email l = true -> list_remove email l <> None.
Proof.
  intros Hin. apply list_contains_In in Hin.
  destruct (list_remove_first _ _ Hin) as (p1 & p2 & _ & _ & ->). discriminate.
Qed.

(** The sorted activity view raises only when it sorts by score and an
    average is beyond the float range, and then [OverflowError]. *)
Lemma items_after_sort_raised sort_by descending s e :
  items_after_sort sort_by descending s = Raised e ->
  sort_by = "score" /\ e = OverflowError
  /\ exists item, In item (activities s)
       /\ (overflow_threshold <= Qabs (exact_average s (fst item)))%Q.
Proof.
  destruct (String.eqb_spec sort_by "score") as [->|Hne].
  - destruct (float_averages_dec s (activities s)) as [Hall|Hex].
    + now rewrite (items_after_sort_score_returned s descending Hall).
    + rewrite (items_after_sort_score_raised s descending Hex).
      intros [= <-]. split; [reflexivity|]. split; [reflexivity|].
      destruct Hex as (item & Hin & Hnone). exists item.
      split; [exact Hin|]. now apply float_average_None.
  - apply String.eqb_neq in Hne. unfold items_after_sort. rewrite Hne.
    destruct (String.eqb sort_by "name"); [discriminate|].
    destruct (String.eqb sort_by "participants"); discriminate.
Qed.

(** X9: a request that raises leaves the store exactly as it was.  What it
    raises is an HTTP 404 or an HTTP 400, with one exception: the activity
    view sorted by score raises [OverflowError] when the average of some
    activity is beyond the float range.  No request raises the [ValueError]
    of [list.remove], because membership is tested first, nor
    [ZeroDivisionError], because an empty list of scores is not divided. *)
Theorem failed_request_changes_nothing (r : request)
  (s : Store) (e : exception) :
  raised_by r s = Some e ->
  serve r s = s
  /\ ((exists detail, e = NotFound detail \/ e = Conflict detail)
      \/ (e = OverflowError
          /\ (exists descending, r = SortedActivities "score" descending)
          /\ exists item, In item (activities s)
               /\ (overflow_threshold <= Qabs (exact_average s (fst item)))%Q)).
Proof.
  destruct r; cbn [raised_by serve]; unfold exception_of.
  - discriminate.
  - discriminate.
  - unfold signup_for_activity. run_handler.
    destruct (dict_get (activities s) activity_name) as [a|].
    + destruct (list_contains email (participants a)).
      * cbn. intros [= <-]. eauto.
      * discriminate.
    + cbn. intros [= <-]. eauto.
  - unfold unregister_from_activity. run_handler.
    destruct (dict_get (activities s) activity_name) as [a|].
    + destruct (list_contains email (participants a)) eqn:Hin; cbn [negb].
      * apply list_contains_remove in Hin.
        destruct (list_remove email (participants a)); [discriminate|].
        now contradiction Hin.
      * cbn. intros [= <-]. eauto.
    + cbn. intros [= <-]. eauto.
  - unfold upload_document. run_handler.
    destruct (dict_get (activities s) activity_name).
    + discriminate.
    + cbn. intros [= <-]. eauto.
  - unfold get_activity_documents. run_handler.
    destruct (dict_get (activities s) activity_name).
    + discriminate.
    + cbn. intros [= <-]. eauto.
  - unfold verify_document. run_handler.
    destruct (activity_documents s !! activity_name) as [docs|].
    + destruct (mark_first email filename docs).
      * discriminate.
      * cbn. intros [= <-]. eauto.
    + cbn. intros [= <-]. eauto.
  - rewrite get_sorted_activities_run. cbn [fst snd].
    destruct (items_after_sort sort_by descending s) as [items|e'] eqn:Hrun;
      [discriminate|].
    intros [= <-]. split; [reflexivity|]. right.
    apply items_after_sort_raised in Hrun as (-> & -> & Hitem).
    split; [reflexivity|]. split; [now exists descending|exact Hitem].
  - unfold get_sorted_participants. run_handler.
    destruct (dict_get (activities s) activity_name).
    + run_handler. destruct (String.eqb sort_by "name"); [discriminate|].
      destruct (String.eqb sort_by "score"); discriminate.
    + cbn. intros [= <-]. eauto.
Qed.

Lemma failed_request_changes_nothing_witness :
  raised_by (SortedActivities "score" true) overflow_store = Some OverflowError
  /\ serve (SortedActivities "score" true) overflow_store = overflow_store
  /\ ((exists detail,
         OverflowError = NotFound detail \/ OverflowError = Conflict detail)
      \/ (OverflowError = OverflowError
          /\ (exists descending,
                SortedActivities "score" true = SortedActivities "score" descending)
          /\ exists item, In item (activities overflow_store)
               /\ (overflow_threshold
                   <= Qabs (exact_average overflow_store (fst item)))%Q)).
Proof.
  assert (Hraised : raised_by (SortedActivities "score" true) overflow_store
                    = Some OverflowError) by (vm_compute; reflexivity).
  split; [exact Hraised|].
  exact (failed_request_changes_nothing _ _ _ Hraised).
Defined.

(** The two kinds of failure, on the seed data and after the upload of a
    score beyond the float range. *)
Example failed_requests :
  raised_by (Unregister "Chess Club" "ada@mergington.edu") seed
  = Some (Conflict "Student is not signed up for this activity")
  /\ raised_by (Signup "Ghost Club" "ada@mergington.edu") seed
     = Some (NotFound "Activity not found")
  /\ raised_by (SortedActivities "score" false) overflow_store
     = Some OverflowError
  /\ raised_by (SortedActivities "name" false) overflow_store = None.
Proof. repeat split; vm_compute; reflexivity. Qed.

(** ** More on the sorted views *)

(** X10: with sort_by=name the activities come back in lexicographic order
    of their names, and with sort_by=participants in order of their
    participant counts, ascending or descending as asked; the store is left
    as it was. *)
Theorem get_sorted_activities_by_name_and_count
  (s : Store) (descending : bool) :
  (exists items,
     get_sorted_activities "name" descending s
     = (Returned (map activity_view items), s)
     /\ Permutation items (activities s)
     /\ StronglySorted (name_in_order descending) items)
  /\ (exists items,
      get_sorted_activities "participants" descending s
      = (Returned (map activity_view items), s)
      /\ Permutation items (activities s)
      /\ StronglySorted (count_in_order descending) items).
Proof.
  split.
  - exists (list_sort fst descending (activities s)).
    split; [now rewrite get_sorted_activities_run|].
    split; [apply list_sort_perm|].
    eapply StronglySorted_weaken; [|apply list_sort_in_order].
    intros a b. unfold name_in_order.
    destruct descending; cbn [in_order]; unfold nonincreasing, nondecreasing;
      cbn [py_lt string_PyOrd]; now rewrite string_leb_ltb.
  - exists (list_sort (fun x : string * Activity =>
                         Z.of_nat (length (participants (snd x))))
              descending (activities s)).
    split; [now rewrite get_sorted_activities_run|].
    split; [apply list_sort_perm|].
    eapply StronglySorted_weaken; [|apply list_sort_in_order].
    intros a b. unfold count_in_order.
    destruct descending; cbn [in_order]; unfold nonincreasing, nondecreasing;
      cbn [py_lt Z_PyOrd]; rewrite Z.ltb_ge; lia.
Qed.

(** X11: when the activity names are pairwise different, as they are in
    every store reachable from the seed data, the list sorted by name in
    descending order is exactly the reverse of the ascending one. *)
Theorem names_descending_is_reverse (s : Store) :
  List.NoDup (map fst (activities s)) ->
  exists items,
    get_sorted_activities "name" false s
    = (Returned (map activity_view items), s)
    /\ get_sorted_activities "name" true s
       = (Returned (map activity_view (rev items)), s).
Proof.
  intros Hnd. exists (list_sort fst false (activities s)).
  split; [now rewrite get_sorted_activities_run|].
  rewrite get_sorted_activities_run.
  unfold items_after_sort. cbn [String.eqb Ascii.eqb Bool.eqb].
  now rewrite (list_sort_reverse_distinct fst _ string_tie_eq Hnd).
Qed.

Lemma names_descending_is_reverse_witness :
  exists items,
    get_sorted_activities "name" false seed
    = (Returned (map activity_view items), seed)
    /\ get_sorted_activities "name" true seed
       = (Returned (map activity_view (rev items)), seed).
Proof.
  apply (names_descending_is_reverse seed).
  apply NoDup_ListNoDup. apply (bool_decide_unpack _). vm_compute. exact I.
Defined.

(** ** Uploads, verification and the sorted views *)

Lemma upload_document_effect s activity_name email file score n :
  activities (snd (upload_document activity_name email file score s))
  = activities s
  /\ (default [] (activity_documents
                    (snd (upload_document activity_name email file score s)) !! n)
      = default [] (activity_documents s !! n)
      \/ default [] (activity_documents
                       (snd (upload_document activity_name email file score s)) !! n)
         = default [] (activity_documents s !! n) ++ [uploaded email file score]).
Proof.
  destruct (dict_get (activities s) activity_name) as [a|] eqn:Hget.
  - rewrite (upload_document_run _ _ _ _ _ a Hget). cbn [snd activities activity_documents].
    split; [reflexivity|].
    destruct (decide (activity_name = n)) as [->|Hn].
    + right. now rewrite lookup_insert_eq.
    + left. now rewrite lookup_insert_ne.
  - rewrite (upload_document_absent _ _ _ _ _ Hget). auto.
Qed.

Lemma first_verified_score_app_unverified email docs d :
  doc_verified d = false ->
  first_verified_score email (docs ++ [d]) = first_verified_score email docs.
Proof.
  intros Hd. induction docs as [|doc docs IH]; cbn [first_verified_score app].
  - now rewrite Hd, andb_false_r.
  - now rewrite IH.
Qed.

Lemma compute_keys_ext {A K} (key key' : A -> outcome K) (l : list A) :
  (forall x, key x = key' x) -> compute_keys key l = compute_keys key' l.
Proof.
  intros Hkey. induction l as [|x l IH]; cbn [compute_keys]; [reflexivity|].
  now rewrite Hkey, IH.
Qed.

Lemma list_sort_by_ext {A K} `{PyOrd K} (key key' : A -> outcome K) reverse
  (l : list A) :
  (forall x, key x = key' x) ->
  list_sort_by key reverse l = list_sort_by key' reverse l.
Proof.
  intros Hkey. unfold list_sort_by. now rewrite (compute_keys_ext key key' l Hkey).
Qed.

Lemma get_sorted_activities_ext s s' sort_by descending :
  activities s' = activities s ->
  (forall n, avg_score (activity_documents s') n
             = avg_score (activity_documents s) n) ->
  fst (get_sorted_activities sort_by descending s')
  = fst (get_sorted_activities sort_by descending s).
Proof.
  intros Hacts Havg. rewrite !get_sorted_activities_run. cbn [fst].
  assert (Hrun : items_after_sort sort_by descending s'
                 = items_after_sort sort_by descending s).
  { unfold items_after_sort. rewrite Hacts.
    destruct (String.eqb sort_by "name"); [reflexivity|].
    destruct (String.eqb sort_by "participants"); [reflexivity|].
    destruct (String.eqb sort_by "score"); [|reflexivity].
    apply list_sort_by_ext. intros y. apply Havg. }
  now rewrite Hrun.
Qed.

Lemma get_sorted_participants_ext s s' activity_name sort_by descending :
  activities s' = activities s ->
  (forall e, first_verified_score e
               (default [] (activity_documents s' !! activity_name))
             = first_verified_score e
                 (default [] (activity_documents s !! activity_name))) ->
  fst (get_sorted_participants activity_name sort_by descending s')
  = fst (get_sorted_participants activity_name sort_by descending s).
Proof.
  intros Hacts Hscore.
  destruct (dict_get (activities s) activity_name) as [a|] eqn:Hget.
  - rewrite (get_sorted_participants_run s _ _ _ a Hget).
    rewrite (get_sorted_participants_run s' _ _ _ a) by now rewrite Hacts.
    cbn [fst]. f_equal. unfold info_after_sort, info_before_sort.
    assert (Hinfo : forall ps,
      map (fun e => mkParticipantInfo e
             (first_verified_score e
                (default [] (activity_documents s' !! activity_name)))) ps
      = map (fun e => mkParticipantInfo e
               (first_verified_score e
                  (default [] (activity_documents s !! activity_name)))) ps).
    { intros ps. apply map_ext. intros e. now rewrite Hscore. }
    now rewrite Hinfo.
  - unfold get_sorted_participants. run_handler. now rewrite Hacts, Hget.
Qed.

(** X12: an upload changes no ranking.  The new record is unverified, so
    after the upload every average is what it was, and both sorted views
    answer every query exactly as before. *)
Theorem upload_keeps_sorted_views (s : Store)
  (activity_name email : string) (file : UploadFile) (score : Z) :
  (forall n,
     avg_score
       (activity_documents (snd (upload_document activity_name email file score s))) n
     = avg_score (activity_documents s) n)
  /\ (forall sort_by descending,
      fst (get_sorted_activities sort_by descending
             (snd (upload_document activity_name email file score s)))
      = fst (get_sorted_activities sort_by descending s))
  /\ (forall n sort_by descending,
      fst (get_sorted_participants n sort_by descending
             (snd (upload_document activity_name email file score s)))
      = fst (get_sorted_participants n sort_by descending s)).
Proof.
  assert (Havg : forall n,
     avg_score
       (activity_documents (snd (upload_document activity_name email file score s))) n
     = avg_score (activity_documents s) n).
  { intros n. rewrite !avg_score_float. apply f_equal with (f := fun o =>
      match o with Some f => Returned f | None => Raised OverflowError end).
    apply float_average_verified. unfold verified_documents.
    destruct (upload_document_effect s activity_name email file score n)
      as [_ [->| ->]]; [reflexivity|].
    rewrite List.filter_app. cbn [List.filter uploaded doc_verified].
    now rewrite app_nil_r. }
  split; [exact Havg|]. split.
  - intros sort_by descending. apply get_sorted_activities_ext; [|exact Havg].
    apply (upload_document_effect s activity_name email file score activity_name).
  - intros n sort_by descending. apply get_sorted_participants_ext.
    + apply (upload_document_effect s activity_name email file score n).
    + intros e.
      destruct (upload_document_effect s activity_name email file score n)
        as [_ [->| ->]]; [reflexivity|].
      now apply first_verified_score_app_unverified.
Qed.

Lemma first_verified_score_unverified email docs :
  (forall d, In d docs -> doc_verified d = false) ->
  first_verified_score email docs = None.
Proof.
  intros Hall. apply first_verified_score_None.
  intros d Hd [_ Hv]. rewrite (Hall d Hd) in Hv. discriminate.
Qed.

(** X13: for an activity without a verified document, the participants
    sorted by score come back in sign-up order, each with score None, in
    both directions: all keys are 0, so the stable sort moves nothing. *)
Theorem get_sorted_participants_no_verified (s : Store) (activity_name : string)
  (descending : bool) (a : Activity) :
  dict_get (activities s) activity_name = Some a ->
  (forall d, In d (default [] (activity_documents s !! activity_name)) ->
             doc_verified d = false) ->
  get_sorted_participants activity_name "score" descending s
  = (Returned (map (fun email => mkParticipantInfo email None) (participants a)), s).
Proof.
  intros Hget Hall. rewrite (get_sorted_participants_run s _ _ _ a Hget).
  f_equal. f_equal. unfold info_after_sort. cbn [String.eqb Ascii.eqb Bool.eqb].
  assert (Hinfo : info_before_sort s activity_name a
                  = map (fun email => mkParticipantInfo email None) (participants a)).
  { unfold info_before_sort. apply map_ext. intros e.
    now rewrite (first_verified_score_unverified e _ Hall). }
  rewrite Hinfo. apply (list_sort_all_tied score_key 0).
  intros x Hx. apply in_map_iff in Hx as (e & <- & _). reflexivity.
Qed.

Lemma get_sorted_participants_no_verified_witness :
  get_sorted_participants "Chess Club" "score" true one_document_store
  = (Returned (map (fun email => mkParticipantInfo email None)
                 ["michael@mergington.edu"; "daniel@mergington.edu"]),
     one_document_store).
Proof.
  apply (get_sorted_participants_no_verified one_document_store "Chess Club" true
           (mkActivity "Learn strategies and compete in chess tournaments"
              "Fridays, 3:30 PM - 5:00 PM" 12
              ["michael@mergington.edu"; "daniel@mergington.edu"])).
  - reflexivity.
  - intros d Hd. vm_compute in Hd. destruct Hd as [<-|[]]. reflexivity.
Defined.

Lemma mark_first_gives_score email filename docs : forall docs',
  mark_first email filename docs = Some docs' ->
  exists sc, first_verified_score email docs' = Some sc.
Proof.
  induction docs as [|doc docs IH]; intros docs'; [discriminate|].
  cbn [mark_first].
  destruct (String.eqb (doc_email doc) email && String.eqb (doc_filename doc) filename)
    eqn:Hm.
  - intros [= <-]. apply andb_true_iff in Hm as [He _].
    cbn [first_verified_score doc_email doc_verified doc_score]. rewrite He.
    cbn. eauto.
  - destruct (mark_first email filename docs) as [rest|]; [|discriminate].
    cbn [option_map]. intros [= <-]. cbn [first_verified_score].
    destruct (String.eqb (doc_email doc) email && doc_verified doc); eauto.
Qed.

(** X14: once a verify call for an email has returned, that participant has
    a score: the participant view of the activity, whatever the sort key
    and direction, holds an entry with that email and a score that is not
    None (that of the participant's first verified document). *)
Theorem verify_document_gives_score (s s1 : Store)
  (activity_name email filename : string) (r : MessageResponse) :
  verify_document activity_name email filename s = (Returned r, s1) ->
  exists sc,
    first_verified_score email
      (default [] (activity_documents s1 !! activity_name)) = Some sc
    /\ (forall a sort_by descending,
        dict_get (activities s1) activity_name = Some a ->
        In email (participants a) ->
        exists info,
          get_sorted_participants activity_name sort_by descending s1
          = (Returned info, s1)
          /\ In (mkParticipantInfo email (Some sc)) info).
Proof.
  unfold verify_document. run_handler.
  destruct (activity_documents s !! activity_name) as [docs|]; [|discriminate].
  destruct (mark_first email filename docs) as [docs'|] eqn:Hmark; [|discriminate].
  run_handler. intros Heq. injection Heq as _ Hs1.
  assert (Hdocs1 : activity_documents s1 !! activity_name = Some docs').
  { rewrite <- Hs1. apply lookup_insert_eq. }
  destruct (mark_first_gives_score _ _ _ _ Hmark) as [sc Hsc].
  exists sc. rewrite Hdocs1. split; [exact Hsc|].
  intros a sort_by descending Hget Hin.
  exists (info_after_sort s1 activity_name sort_by descending a).
  split; [now apply get_sorted_participants_run|].
  eapply Permutation_in; [symmetry; apply info_after_sort_perm|].
  unfold info_before_sort. rewrite Hdocs1.
  apply in_map_iff. exists email.
  split; [|exact Hin]. cbn in Hsc |- *. now rewrite Hsc.
Qed.

Lemma verify_document_gives_score_witness :
  exists sc,
    first_verified_score "michael@mergington.edu"
      (default []
         (activity_documents
            (snd (verify_document "Chess Club" "michael@mergington.edu"
                    "medal.pdf" one_document_store)) !! "Chess Club"))
    = Some sc
    /\ (forall a sort_by descending,
        dict_get
          (activities (snd (verify_document "Chess Club" "michael@mergington.edu"
                              "medal.pdf" one_document_store)))
          "Chess Club" = Some a ->
        In "michael@mergington.edu" (participants a) ->
        exists info,
          get_sorted_participants "Chess Club" sort_by descending
            (snd (verify_document "Chess Club" "michael@mergington.edu"
                    "medal.pdf" one_document_store))
          = (Returned info,
             snd (verify_document "Chess Club" "michael@mergington.edu"
                    "medal.pdf" one_document_store))
          /\ In (mkParticipantInfo "michael@mergington.edu" (Some sc)) info).
Proof.
  apply (verify_document_gives_score one_document_store _ "Chess Club"
           "michael@mergington.edu" "medal.pdf"
           (mkMessage "Verified medal.pdf for michael@mergington.edu in Chess Club")).
  vm_compute. reflexivity.
Defined.

(** ** Read-only requests *)

(** X15: the five GET handlers (the redirect, the activity listing, the
    document listing and the two sorted views) never change the store,
    whether they return or raise; so asking twice in a row gives the same
    answer twice. *)
Theorem get_requests_read_only (s : Store) :
  snd (root s) = s
  /\ snd (get_activities s) = s
  /\ (forall n, snd (get_activity_documents n s) = s)
  /\ (forall k d, snd (get_sorted_activities k d s) = s)
  /\ (forall n k d, snd (get_sorted_participants n k d s) = s)
  /\ get_activities (snd (get_activities s)) = get_activities s
  /\ (forall n, get_activity_documents n (snd (get_activity_documents n s))
                = get_activity_documents n s)
  /\ (forall k d,
      get_sorted_activities k d
        (snd (get_sorted_activities k d s))
      = get_sorted_activities k d s)
  /\ (forall n k d,
      get_sorted_participants n k d (snd (get_sorted_participants n k d s))
      = get_sorted_participants n k d s).
Proof.
  assert (Hdocs : forall n, snd (get_activity_documents n s) = s).
  { intros n. unfold get_activity_documents. run_handler.
    destruct (dict_get (activities s) n); reflexivity. }
  assert (Hpart : forall n k d, snd (get_sorted_participants n k d s) = s).
  { intros n k d. unfold get_sorted_participants. run_handler.
    destruct (dict_get (activities s) n); [|reflexivity]. run_handler.
    destruct (String.eqb k "name"); [reflexivity|].
    destruct (String.eqb k "score"); reflexivity. }
  repeat split; try reflexivity; intros.
  - apply Hdocs.
  - apply get_sorted_activities_store.
  - apply Hpart.
  - now rewrite Hdocs.
  - now rewrite get_sorted_activities_store.
  - now rewrite Hpart.
Qed.
